(** * Simple-interest calculator (src/app/index.tsx): model and properties

    The screen's logic is three functions: [parseDateString], [formatDateInput]
    and [calculateInterest].  They are written against the JavaScript host
    (strings of UTF-16 code units, IEEE-754 binary64 numbers, [parseInt],
    [parseFloat], [Number.prototype.toFixed] and [Date]), so the first half of
    this file embeds the part of ECMAScript the three functions touch, and the
    second half embeds the functions themselves, statement by statement.

    Around them the component has the default end date ([getTodayIST],
    [formatDateToDDMMYYYY]), the [useState] hooks, the three [onChangeText]
    handlers and the [useEffect] that calls [calculateInterest]; they are
    embedded as a state machine over the component's state.  The markup the
    component returns and the style sheet are not modelled. *)

From Stdlib Require Import ZArith NArith List String Ascii Bool Lia.
From Stdlib Require Import SpecFloat DecimalN.
Import ListNotations.

Local Open Scope Z_scope.

(** ** Strings

    A JavaScript string is a sequence of 16-bit code units. *)

Module Str.

Definition code_unit := N.
Definition jsstring := list code_unit.

(** Literals of the source are ASCII; [lit] injects them. *)
Definition lit (s : string) : jsstring :=
  map N_of_ascii (list_ascii_of_string s).

Definition cu_eqb (a b : code_unit) : bool := N.eqb a b.

Fixpoint eqb (a b : jsstring) : bool :=
  match a, b with
  | [], [] => true
  | x :: a', y :: b' => cu_eqb x y && eqb a' b'
  | _, _ => false
  end.

Definition in_range (lo hi c : code_unit) : bool :=
  (N.leb lo c && N.leb c hi)%bool.

(** [0-9], the complement of the regular expression class [\D]. *)
Definition is_digit (c : code_unit) : bool := in_range 48%N 57%N c.

(** WhiteSpace and LineTerminator of ECMAScript: TAB, LF, VT, FF, CR, SP,
    NBSP, the Zs category, LS, PS and the byte-order mark. *)
Definition is_white (c : code_unit) : bool :=
  (in_range 9 13 c || cu_eqb c 32 || cu_eqb c 160 || cu_eqb c 5760
   || in_range 8192 8202 c || cu_eqb c 8232 || cu_eqb c 8233
   || cu_eqb c 8239 || cu_eqb c 8287 || cu_eqb c 12288
   || cu_eqb c 65279)%bool%N.

Fixpoint drop_while (p : code_unit -> bool) (s : jsstring) : jsstring :=
  match s with
  | [] => []
  | c :: r => if p c then drop_while p r else s
  end.

Fixpoint take_while (p : code_unit -> bool) (s : jsstring) : jsstring :=
  match s with
  | [] => []
  | c :: r => if p c then c :: take_while p r else []
  end.

Definition trimStart (s : jsstring) : jsstring := drop_while is_white s.
Definition trimEnd (s : jsstring) : jsstring := rev (drop_while is_white (rev s)).

(** [String.prototype.trim]. *)
Definition trim (s : jsstring) : jsstring := trimEnd (trimStart s).

(** [String.prototype.split] with a one-code-unit separator: the result
    always has at least one part, and [n] separators give [n + 1] parts. *)
Fixpoint split (sep : code_unit) (s : jsstring) : list jsstring :=
  match s with
  | [] => [[]]
  | c :: r =>
      if cu_eqb c sep then [] :: split sep r
      else match split sep r with
           | h :: t => (c :: h) :: t
           | [] => [[c]]
           end
  end.

(** [String.prototype.slice] with [0 <= from <= to]. *)
Definition slice (from to : nat) (s : jsstring) : jsstring :=
  firstn (to - from) (skipn from s).

(** [value.replace(/\D/g, '')]. *)
Definition strip_non_digits (s : jsstring) : jsstring := filter is_digit s.

Fixpoint starts_with (p s : jsstring) : bool :=
  match p, s with
  | [], _ => true
  | x :: p', y :: s' => cu_eqb x y && starts_with p' s'
  | _ :: _, [] => false
  end.

(** Decimal rendering of a natural number, most significant digit first. *)
Definition digit_cu (d : N) : code_unit := (48 + d)%N.

Fixpoint of_uint (d : Decimal.uint) : jsstring :=
  match d with
  | Decimal.Nil => []
  | Decimal.D0 r => digit_cu 0%N :: of_uint r
  | Decimal.D1 r => digit_cu 1%N :: of_uint r
  | Decimal.D2 r => digit_cu 2%N :: of_uint r
  | Decimal.D3 r => digit_cu 3%N :: of_uint r
  | Decimal.D4 r => digit_cu 4%N :: of_uint r
  | Decimal.D5 r => digit_cu 5%N :: of_uint r
  | Decimal.D6 r => digit_cu 6%N :: of_uint r
  | Decimal.D7 r => digit_cu 7%N :: of_uint r
  | Decimal.D8 r => digit_cu 8%N :: of_uint r
  | Decimal.D9 r => digit_cu 9%N :: of_uint r
  end.

Definition of_N (n : N) : jsstring := of_uint (N.to_uint n).

(** Value of a run of decimal (or hexadecimal) digits. *)
Definition digit_val (c : code_unit) : option Z :=
  if in_range 48%N 57%N c then Some (Z.of_N c - 48)
  else if in_range 97%N 102%N c then Some (Z.of_N c - 87)
  else if in_range 65%N 70%N c then Some (Z.of_N c - 55)
  else None.

Definition is_radix_digit (radix : Z) (c : code_unit) : bool :=
  match digit_val c with
  | Some v => v <? radix
  | None => false
  end.

Definition digit_step (radix : Z) (acc : Z) (c : code_unit) : Z :=
  match digit_val c with
  | Some v => acc * radix + v
  | None => acc
  end.

Definition digits_value (radix : Z) (s : jsstring) : Z :=
  fold_left (digit_step radix) s 0.


(** ToBoolean on a string: only the empty string is falsy. *)
Definition truthy (s : jsstring) : bool :=
  match s with [] => false | _ => true end.

(** [String.prototype.padStart (maxLength, fillString)]: the fill string is
    repeated and cut to the missing length. *)
Definition padStart (maxLength : nat) (fillString s : jsstring) : jsstring :=
  let fillLen := (maxLength - List.length s)%nat in
  if (maxLength <=? List.length s)%nat then s
  else match fillString with
       | [] => s
       | _ => (firstn fillLen (List.concat (repeat fillString fillLen)) ++ s)%list
       end.

End Str.

Definition jsstring : Type := Str.jsstring.
Definition js (s : string) : jsstring := Str.lit s.
Arguments js s%_string.

(** ** Numbers

    The Number type is IEEE-754 binary64.  Its values and operations are the
    Standard Library's [spec_float] at precision 53 and maximal exponent
    1024; every operation rounds to nearest, ties to even. *)

Module Num.

Definition number : Type := spec_float.

Definition prec : Z := 53.
Definition emax : Z := 1024.

Definition NaN : number := S754_nan.
Definition Infinity : number := S754_infinity false.

Definition mul : number -> number -> number := SFmul prec emax.
Definition div : number -> number -> number := SFdiv prec emax.
Definition sub : number -> number -> number := SFsub prec emax.

(** The Number nearest to an integer. *)
Definition of_Z (z : Z) : number := binary_normalize prec emax z 0 false.

(** The Number nearest to the positive rational [p / q], with sign [neg]. *)
Definition of_ratio (neg : bool) (p q : positive) : number :=
  let '(m, e, l) := SFdiv_core_binary prec emax (Zpos p) 0 (Zpos q) 0 in
  binary_round_aux prec emax neg m e l.

(** The Number nearest to [m * 10 ^ e10], with sign [neg]. *)
Definition of_decimal (neg : bool) (m : Z) (e10 : Z) : number :=
  match m with
  | Zpos p =>
      if 0 <=? e10
      then binary_round prec emax neg (p * Z.to_pos (10 ^ e10)) 0
      else of_ratio neg p (Z.to_pos (10 ^ (- e10)))
  | _ => S754_zero neg
  end.

Definition isNaN (x : number) : bool :=
  match x with S754_nan => true | _ => false end.

Definition is_finite (x : number) : bool :=
  match x with S754_zero _ | S754_finite _ _ _ => true | _ => false end.

(** ToBoolean: NaN, +0 and -0 are falsy. *)
Definition truthy (x : number) : bool :=
  match x with S754_nan | S754_zero _ => false | _ => true end.

(** The exact value of a finite Number, as a pair [(num, k)] that stands for
    the rational [num / 2 ^ k] with [0 <= k]; [None] for NaN and the
    infinities. *)
Definition exact (x : number) : option (Z * Z) :=
  match x with
  | S754_zero _ => Some (0, 0)
  | S754_finite s m e =>
      let v := if s then Zneg m else Zpos m in
      if 0 <=? e then Some (v * 2 ^ e, 0) else Some (v, - e)
  | _ => None
  end.

(** Numbers are compared by their exact values; a comparison with NaN is
    undefined, and [x < y], [x <= y], [x > y] and [x == y] are then false. *)
Definition cmp (x y : number) : option comparison :=
  match x, y with
  | S754_nan, _ | _, S754_nan => None
  | S754_infinity s1, S754_infinity s2 =>
      Some (match s1, s2 with
            | true, false => Lt
            | false, true => Gt
            | _, _ => Eq
            end)
  | S754_infinity s, _ => Some (if s then Lt else Gt)
  | _, S754_infinity s => Some (if s then Gt else Lt)
  | _, _ =>
      match exact x, exact y with
      | Some (a, j), Some (b, k) => Some (Z.compare (a * 2 ^ k) (b * 2 ^ j))
      | _, _ => None
      end
  end.

Definition ltb (x y : number) : bool :=
  match cmp x y with Some Lt => true | _ => false end.
Definition leb (x y : number) : bool :=
  match cmp x y with Some (Lt | Eq) => true | _ => false end.
Definition gtb (x y : number) : bool := ltb y x.
Definition eqb (x y : number) : bool :=
  match cmp x y with Some Eq => true | _ => false end.

(** ToIntegerOrInfinity on a finite Number: truncation toward zero. *)
Definition trunc (x : number) : option Z :=
  match exact x with
  | Some (n, k) => Some (Z.quot n (2 ^ k))
  | None => None
  end.

(** The integer a Number denotes, when it denotes one. *)
Definition to_Z (x : number) : option Z :=
  match exact x with
  | Some (n, k) => if Z.rem n (2 ^ k) =? 0 then Some (Z.quot n (2 ^ k)) else None
  | None => None
  end.

(** [Math.floor]. *)
Definition floor (x : number) : number :=
  match x with
  | S754_finite s m e =>
      if 0 <=? e then x
      else binary_normalize prec emax
             (Z.div (if s then Zneg m else Zpos m) (2 ^ (- e))) 0 s
  | _ => x
  end.

(** *** Integers among the Numbers

    [canon v] is the normalised representation of the integer [v]: a 53-bit
    mantissa and the matching exponent.  [v] is representable when
    normalising drops no nonzero bit. *)
Definition size (v : Z) : Z := Z.log2 v + 1.

Definition canon (v : Z) : number :=
  match v with
  | Z0 => S754_zero false
  | Zpos p =>
      S754_finite false (Z.to_pos (Z.shiftl v (prec - size v))) (size v - prec)
  | Zneg p =>
      S754_finite true (Z.to_pos (Z.shiftl (Zpos p) (prec - size (Zpos p))))
                  (size (Zpos p) - prec)
  end.

Definition representable (v : Z) : Prop :=
  Z.abs v < 2 ^ 64 /\
  Z.shiftl (Z.shiftl (Z.abs v) (prec - size (Z.abs v))) (size (Z.abs v) - prec)
  = Z.abs v.

(** *** [parseInt(string)] with no radix argument

    Leading white space is skipped, a sign is read, a [0x]/[0X] prefix
    selects radix 16, and the longest run of digits is converted; an empty
    run gives NaN. *)
Definition parseInt (input : jsstring) : number :=
  let s := Str.trimStart input in
  let neg := match s with c :: _ => Str.cu_eqb c 45%N | [] => false end in
  let s := match s with
           | c :: r => if (Str.cu_eqb c 43%N || Str.cu_eqb c 45%N)%bool then r else s
           | [] => s
           end in
  let '(radix, s) :=
    match s with
    | c0 :: c1 :: r =>
        if (Str.cu_eqb c0 48%N && (Str.cu_eqb c1 120%N || Str.cu_eqb c1 88%N))%bool
        then (16, r) else (10, s)
    | _ => (10, s)
    end in
  let z := Str.take_while (Str.is_radix_digit radix) s in
  match z with
  | [] => NaN
  | _ => of_decimal neg (Str.digits_value radix z) 0
  end.

(** *** [parseFloat(string)]

    The longest prefix of the left-trimmed input that is a StrDecimalLiteral
    is converted; with no such prefix the result is NaN. *)

(** An optional exponent part [e|E (+|-)? digits]; without digits after the
    indicator the exponent part is not part of the prefix. *)
Definition exponent_part (s : jsstring) : Z :=
  match s with
  | c :: r =>
      if (Str.cu_eqb c 101%N || Str.cu_eqb c 69%N)%bool then
        let '(eneg, r') :=
          match r with
          | d :: r'' =>
              if Str.cu_eqb d 45%N then (true, r'')
              else if Str.cu_eqb d 43%N then (false, r'')
              else (false, r)
          | [] => (false, r)
          end in
        match Str.take_while Str.is_digit r' with
        | [] => 0
        | ds => let v := Str.digits_value 10 ds in if eneg then - v else v
        end
      else 0
  | [] => 0
  end.

Definition unsigned_decimal (neg : bool) (s : jsstring) : number :=
  if Str.starts_with (Str.lit "Infinity") s then S754_infinity neg
  else
    let ip := Str.take_while Str.is_digit s in
    let r := Str.drop_while Str.is_digit s in
    let '(fp, r') :=
      match r with
      | c :: r1 =>
          if Str.cu_eqb c 46%N
          then (Str.take_while Str.is_digit r1, Str.drop_while Str.is_digit r1)
          else ([], r)
      | [] => ([], r)
      end in
    match ip, fp with
    | [], [] => NaN
    | _, _ =>
        of_decimal neg (Str.digits_value 10 (ip ++ fp))
                   (exponent_part r' - Z.of_nat (List.length fp))
    end.

Definition parseFloat (input : jsstring) : number :=
  match Str.trimStart input with
  | c :: r =>
      if Str.cu_eqb c 45%N then unsigned_decimal true r
      else if Str.cu_eqb c 43%N then unsigned_decimal false r
      else unsigned_decimal false (c :: r)
  | [] => NaN
  end.

(** *** [Number::toString] for finite values of at least [10 ^ 21]

    Such a value is an integer [v].  The digits are those of the integer
    [s] with the fewest digits [k] such that [s * 10 ^ (n - k)] converts
    back to the value; among several, the closest to [v], then the even one.
    The notation is exponential, since [n > 21]. *)
Definition candidates (x : number) (v : Z) (k : Z) : list (Z * Z) :=
  let nd := Z.of_nat (List.length (Str.of_N (Z.to_N v))) in
  flat_map (fun n =>
    let scale := 10 ^ (n - k) in
    filter (fun sn => let s := fst sn in
              ((10 ^ (k - 1) <=? s) && (s <? 10 ^ k)
               && eqb (of_Z (s * scale)) x)%bool)
           [(v / scale, n); (v / scale + 1, n)])
    [nd; nd + 1].

Definition closer (v : Z) (a b : Z * Z) : Z * Z :=
  let da := Z.abs (fst a * 10 ^ (snd a) - v) in
  let db := Z.abs (fst b * 10 ^ (snd b) - v) in
  if da <? db then a
  else if db <? da then b
  else if Z.even (fst a) then a else b.

Fixpoint shortest (x : number) (v : Z) (ks : list Z) : option (Z * Z * Z) :=
  match ks with
  | [] => None
  | k :: ks' =>
      match candidates x v k with
      | [] => shortest x v ks'
      | c :: cs =>
          let '(s, e) :=
            fold_left (closer v)
                      (map (fun sn => (fst sn, snd sn - k)) cs)
                      (fst c, snd c - k) in
          Some (s, k, e + k)
      end
  end.

Definition toString_large (x : number) : jsstring :=
  match to_Z x with
  | Some v =>
      match shortest x v (map Z.of_nat (seq 1 17)) with
      | Some (s, k, n) =>
          let ds := Str.of_N (Z.to_N s) in
          let ex := Str.of_N (Z.to_N (n - 1)) in
          match ds with
          | d :: (_ :: _) as rest =>
              (d :: Str.lit "." ++ rest ++ Str.lit "e+" ++ ex)%list
          | _ => (ds ++ Str.lit "e+" ++ ex)%list
          end
      | None => []
      end
  | None => []
  end.

(** *** [Number.prototype.toFixed(f)]

    Non-finite values print as [NaN], [Infinity] and [-Infinity].  For a
    finite value the sign is split off; a magnitude of at least [10 ^ 21] is
    printed by [Number::toString]; otherwise [n] is the integer for which
    [n / 10 ^ f] is closest to the exact magnitude, the larger one on a tie,
    printed with [f] digits after the point. *)
Definition round_half_up (num k : Z) (f : nat) : Z :=
  (2 * num * 10 ^ Z.of_nat f + 2 ^ k) / 2 ^ (k + 1).


Definition fixed_digits (n : Z) (f : nat) : jsstring :=
  let m := Str.of_N (Z.to_N n) in
  match f with
  | O => m
  | _ =>
      let m := (repeat 48%N (S f - List.length m) ++ m)%list in
      let k := List.length m in
      (firstn (k - f) m ++ Str.lit "." ++ skipn (k - f) m)%list
  end.

Definition toFixed (f : nat) (x : number) : jsstring :=
  match x with
  | S754_nan => Str.lit "NaN"
  | S754_infinity false => Str.lit "Infinity"
  | S754_infinity true => Str.lit "-Infinity"
  | S754_zero _ => fixed_digits 0 f
  | S754_finite neg m e =>
      let sign := if neg then Str.lit "-" else [] in
      let mag := S754_finite false m e in
      if leb (of_decimal false 1 21) mag
      then (sign ++ toString_large mag)%list
      else
        match exact mag with
        | Some (num, k) => (sign ++ fixed_digits (round_half_up num k f) f)%list
        | None => []
        end
  end.


Definition add : number -> number -> number := SFadd prec emax.

(** *** [Number::toString], radix 10

    For a finite positive value [x] the digits are those of the integer [s]
    with the fewest digits [k] such that [s * 10 ^ (n - k)] converts back to
    [x]; among several, the one closest to [x], then the even one.  The
    notation is positional for [-6 < n <= 21] and exponential otherwise. *)

(** Number of decimal digits of a positive integer. *)
Definition ndigits (v : Z) : Z := Z.of_nat (List.length (Str.of_N (Z.to_N v))).

(** The least [j], counted from the one given, with [den <= num * 10 ^ j]. *)
Fixpoint first_scale (fuel : nat) (num den j : Z) : Z :=
  match fuel with
  | O => j
  | S f => if den <=? num * 10 ^ j then j else first_scale f num den (j + 1)
  end.

(** The [n] with [10 ^ (n - 1) <= num / 2 ^ k < 10 ^ n]; the least positive
    Number is above [10 ^ -324]. *)
Definition decimal_exponent (num k : Z) : Z :=
  if 2 ^ k <=? num then ndigits (num / 2 ^ k)
  else 1 - first_scale 400 num (2 ^ k) 1.

(** The integer part of [(num / 2 ^ k) / 10 ^ e]. *)
Definition scaled_floor (num k e : Z) : Z :=
  if 0 <=? e then num / (2 ^ k * 10 ^ e) else (num * 10 ^ (- e)) / 2 ^ k.

(** The distance of [s * 10 ^ e] from [num / 2 ^ k], as a fraction. *)
Definition distance (num k : Z) (se : Z * Z) : Z * Z :=
  let '(s, e) := se in
  if 0 <=? e then (Z.abs (s * 10 ^ e * 2 ^ k - num), 2 ^ k)
  else (Z.abs (s * 2 ^ k - num * 10 ^ (- e)), 2 ^ k * 10 ^ (- e)).

Definition nearer (num k : Z) (a b : Z * Z) : Z * Z :=
  let '(na, da) := distance num k a in
  let '(nb, db) := distance num k b in
  if na * db <? nb * da then a
  else if nb * da <? na * db then b
  else if Z.even (fst a) then a else b.

(** The pairs [(s, n - kk)] with [kk] digits in [s] that convert back to
    [x]: the two integers around [x / 10 ^ (n - kk)], for the decimal
    exponent of [x] and the next one. *)
Definition digit_candidates (x : number) (num k n0 kk : Z) : list (Z * Z) :=
  flat_map (fun n =>
    let e := n - kk in
    let s := scaled_floor num k e in
    filter (fun se => let s := fst se in
              ((10 ^ (kk - 1) <=? s) && (s <? 10 ^ kk)
               && eqb (of_decimal false s e) x)%bool)
           [(s, e); (s + 1, e)])
    [n0; n0 + 1].

Fixpoint shortest_digits (x : number) (num k n0 : Z) (kks : list Z)
  : option (Z * Z * Z) :=
  match kks with
  | [] => None
  | kk :: rest =>
      match digit_candidates x num k n0 kk with
      | [] => shortest_digits x num k n0 rest
      | c :: cs =>
          let '(s, e) := fold_left (nearer num k) cs c in
          Some (s, kk, e + kk)
      end
  end.

Definition zeros (n : Z) : jsstring := repeat 48%N (Z.to_nat n).

Definition exponent_text (e : Z) : jsstring :=
  ((if e <? 0 then Str.lit "-" else Str.lit "+") ++ Str.of_N (Z.to_N (Z.abs e)))%list.

Definition toString_pos (x : number) : jsstring :=
  match exact x with
  | Some (num, k) =>
      match shortest_digits x num k (decimal_exponent num k)
                            (map Z.of_nat (seq 1 17)) with
      | Some (s, kk, n) =>
          let ds := Str.of_N (Z.to_N s) in
          if ((kk <=? n) && (n <=? 21))%bool then (ds ++ zeros (n - kk))%list
          else if ((0 <? n) && (n <=? 21))%bool
          then (firstn (Z.to_nat n) ds ++ Str.lit "." ++ skipn (Z.to_nat n) ds)%list
          else if ((-6 <? n) && (n <=? 0))%bool
          then (Str.lit "0." ++ zeros (- n) ++ ds)%list
          else match ds with
               | d :: (_ :: _) as rest =>
                   (d :: Str.lit "." ++ rest ++ Str.lit "e" ++ exponent_text (n - 1))%list
               | _ => (ds ++ Str.lit "e" ++ exponent_text (n - 1))%list
               end
      | None => []
      end
  | None => []
  end.

(** [String(x)] and the conversion of a Number in a template literal. *)
Definition toString (x : number) : jsstring :=
  match x with
  | S754_nan => Str.lit "NaN"
  | S754_zero _ => Str.lit "0"
  | S754_infinity false => Str.lit "Infinity"
  | S754_infinity true => Str.lit "-Infinity"
  | S754_finite neg m e =>
      ((if neg then Str.lit "-" else []) ++ toString_pos (S754_finite false m e))%list
  end.

End Num.

Definition number : Type := Num.number.

(** ** Dates

    A Date object holds a time value: NaN, or an integral number of
    milliseconds since the epoch of magnitude at most [8.64e15].  The three
    argument constructor reads its arguments in local time.

    ECMAScript leaves two things to the host, and both are parameters of
    this model, collected in [Host]: the time zone, as the offset of local
    time from UTC at each instant, and the arguments that [MakeDay] refuses
    as out of range.  An integer [tza] stands for the host whose offset is
    [tza] milliseconds at all times, as it is for India Standard Time, the
    zone the screen is written for ([getTodayIST]), and whose [MakeDay]
    refuses nothing. *)

Module JSDate.

Definition msPerDay : Z := 86400000.
Definition maxTime : Z := 8640000000000000.

Definition Day (t : Z) : Z := t / msPerDay.

Definition DayFromYear (y : Z) : Z :=
  365 * (y - 1970) + (y - 1969) / 4 - (y - 1901) / 100 + (y - 1601) / 400.

Definition DaysInYear (y : Z) : Z :=
  if negb (y mod 4 =? 0) then 365
  else if negb (y mod 100 =? 0) then 366
  else if negb (y mod 400 =? 0) then 365
  else 366.

Definition leap (y : Z) : Z := DaysInYear y - 365.

(** The largest [y] with [DayFromYear y <= d]: the Gregorian calendar
    repeats every 400 years (146097 days); within a cycle the year is at most
    two more than the day offset divided by 366. *)
Definition YearFromDay (d : Z) : Z :=
  let d' := d - 10957 in
  let y0 := 2000 + 400 * (d' / 146097) + (d' mod 146097) / 366 in
  if DayFromYear (y0 + 2) <=? d then y0 + 2
  else if DayFromYear (y0 + 1) <=? d then y0 + 1
  else y0.

Definition YearFromTime (t : Z) : Z := YearFromDay (Day t).

Definition DayWithinYear (t : Z) : Z := Day t - DayFromYear (YearFromTime t).

(** Day number within the year on which month [mn] (0 to 11) starts. *)
Definition month_start (lp : Z) (mn : Z) : Z :=
  match mn with
  | 0 => 0
  | 1 => 31
  | 2 => 59 + lp
  | 3 => 90 + lp
  | 4 => 120 + lp
  | 5 => 151 + lp
  | 6 => 181 + lp
  | 7 => 212 + lp
  | 8 => 243 + lp
  | 9 => 273 + lp
  | 10 => 304 + lp
  | 11 => 334 + lp
  | _ => 365 + lp
  end.

(** Number of days of month [mn] (0 to 11). *)
Definition month_length (lp : Z) (mn : Z) : Z :=
  match mn with
  | 1 => 28 + lp
  | 3 | 5 | 8 | 10 => 30
  | _ => 31
  end.

Definition MonthFromTime (t : Z) : Z :=
  let lp := leap (YearFromTime t) in
  let d := DayWithinYear t in
  if d <? 31 then 0
  else if d <? 59 + lp then 1
  else if d <? 90 + lp then 2
  else if d <? 120 + lp then 3
  else if d <? 151 + lp then 4
  else if d <? 181 + lp then 5
  else if d <? 212 + lp then 6
  else if d <? 243 + lp then 7
  else if d <? 273 + lp then 8
  else if d <? 304 + lp then 9
  else if d <? 334 + lp then 10
  else 11.

Definition DateFromTime (t : Z) : Z :=
  DayWithinYear t - month_start (leap (YearFromTime t)) (MonthFromTime t) + 1.

(** [MakeFullYear]: a year that truncates into [0, 99] means [1900 + year]. *)
Definition MakeFullYear (year : number) : option Z :=
  match Num.trunc year with
  | Some t => Some (if ((0 <=? t) && (t <=? 99))%bool then 1900 + t else t)
  | None => None
  end.

(** [MakeDay]: the day number of day [date] of month [month] of [year];
    months and days outside a year or a month carry over. *)
Definition MakeDay (year : option Z) (month date : number) : option Z :=
  match year, Num.trunc month, Num.trunc date with
  | Some y, Some m, Some dt =>
      let ym := y + m / 12 in
      let mn := m mod 12 in
      Some (DayFromYear ym + month_start (leap ym) mn + dt - 1)
  | _, _, _ => None
  end.

Definition MakeDate (day : option Z) (time : Z) : option Z :=
  match day with
  | Some d => Some (d * msPerDay + time)
  | None => None
  end.

(** The host.  [offset t isUTC] is LocalTZA(t, isUTC), in milliseconds: the
    offset of local time from UTC at the UTC time [t], or, with [isUTC]
    false, at the local time [t].  [handles y m dt] tells whether [MakeDay]
    computes a day number for the integers [y], [m] and [dt]. *)
Record Host : Type := mkHost {
  offset : Z -> bool -> Z;
  handles : Z -> Z -> Z -> bool
}.

(** The host with a constant offset and no limit in [MakeDay]. *)
Definition fixed (tza : Z) : Host :=
  mkHost (fun _ _ => tza) (fun _ _ _ => true).

Definition UTC (h : Host) (t : Z) : Z := t - offset h t false.
Definition LocalTime (h : Host) (t : Z) : Z := t + offset h t true.

(** [MakeDay] as the host computes it. *)
Definition HostMakeDay (h : Host) (year : option Z) (month date : number)
  : option Z :=
  match year, Num.trunc month, Num.trunc date with
  | Some y, Some m, Some dt =>
      if handles h y m dt then MakeDay year month date else None
  | _, _, _ => None
  end.

Definition TimeClip (t : option Z) : option Z :=
  match t with
  | Some v => if maxTime <? Z.abs v then None else Some v
  | None => None
  end.

Record Date : Type := mkDate { DateValue : option Z }.

(** [new Date(year, month, day)]. *)
Definition make (h : Host) (year month day : number) : Date :=
  let yr := MakeFullYear year in
  let finalDate := MakeDate (HostMakeDay h yr month day) 0 in
  mkDate (TimeClip (option_map (UTC h) finalDate)).

Definition getTime (d : Date) : number :=
  match DateValue d with
  | Some t => Num.of_Z t
  | None => Num.NaN
  end.

Definition local_field (f : Z -> Z) (h : Host) (d : Date) : number :=
  match DateValue d with
  | Some t => Num.of_Z (f (LocalTime h t))
  | None => Num.NaN
  end.

Definition getFullYear : Host -> Date -> number := local_field YearFromTime.
Definition getMonth : Host -> Date -> number := local_field MonthFromTime.
Definition getDate : Host -> Date -> number := local_field DateFromTime.

(** [a > b] on Date objects compares their time values as Numbers. *)
Definition gtb (a b : Date) : bool := Num.gtb (getTime a) (getTime b).


(** [new Date(value)] on a Number: the time value is [TimeClip(value)].  A
    Number beyond [maxTime] is an integer, so that clipping after the
    truncation is clipping before it. *)
Definition of_number (v : number) : Date := mkDate (TimeClip (Num.trunc v)).

End JSDate.

Definition Date : Type := JSDate.Date.

(** An integer is read as the host with that constant offset. *)
Coercion JSDate.fixed : Z >-> JSDate.Host.

(** ** The screen: src/app/index.tsx *)

(** [const interestRates = [3, 4, 7, 12]]. *)
Definition interestRates : list number :=
  map Num.of_Z [3; 4; 7; 12].

Record Entry : Type := mkEntry { rate : number; interest : jsstring }.

Record Results : Type := mkResults {
  dayDiff : number;
  data : list Entry;
  res_startDate : jsstring;
  res_endDate : jsstring
}.

(** The component's state: one field per [useState] hook. *)
Record State : Type := mkState {
  principal : jsstring;
  startDate : jsstring;
  endDate : jsstring;
  error : jsstring;
  principalError : bool;
  startDateError : bool;
  results : option Results
}.

Definition setError (e : jsstring) (st : State) : State :=
  mkState (principal st) (startDate st) (endDate st) e
          (principalError st) (startDateError st) (results st).

Definition setPrincipalError (b : bool) (st : State) : State :=
  mkState (principal st) (startDate st) (endDate st) (error st)
          b (startDateError st) (results st).

Definition setStartDateError (b : bool) (st : State) : State :=
  mkState (principal st) (startDate st) (endDate st) (error st)
          (principalError st) b (results st).

Definition setResults (r : option Results) (st : State) : State :=
  mkState (principal st) (startDate st) (endDate st) (error st)
          (principalError st) (startDateError st) r.

(** The five messages of [calculateInterest]. *)
Definition msg_principal_required : jsstring := js "Principal amount is required".
Definition msg_start_required : jsstring := js "Start date is required".
Definition msg_invalid_principal : jsstring := js "Enter valid principal amount".
Definition msg_invalid_dates : jsstring := js "Enter valid dates".
Definition msg_date_order : jsstring := js "Start date cannot be after end date".

(** [!s || s.trim() === ''] on a string. *)
Definition blank (s : jsstring) : bool :=
  (match s with [] => true | _ => false end
   || Str.eqb (Str.trim s) (js ""))%bool.

(** [formatDateInput (value, previousValue)]. *)
Definition formatDateInput (value previousValue : jsstring) : jsstring :=
  let digits := Str.strip_non_digits value in
  let formatted := js "" in
  let formatted :=
    if (0 <? List.length digits)%nat
    then (formatted ++ Str.slice 0 2 digits)%list else formatted in
  let formatted :=
    if (2 <? List.length digits)%nat
    then (formatted ++ js "/" ++ Str.slice 2 4 digits)%list else formatted in
  let formatted :=
    if (4 <? List.length digits)%nat
    then (formatted ++ js "/" ++ Str.slice 4 8 digits)%list else formatted in
  formatted.

Section Host.

(** The host the screen runs on. *)
Variable host : JSDate.Host.

(** [parseDateString (dateStr)]; [None] is [null]. *)
Definition parseDateString (dateStr : jsstring) : option Date :=
  let parts := Str.split 47%N dateStr in
  if negb (List.length parts =? 3)%nat then None
  else
    let day := Num.parseInt (nth 0 parts []) in
    let month := Num.sub (Num.parseInt (nth 1 parts [])) (Num.of_Z 1) in
    let year := Num.parseInt (nth 2 parts []) in
    let date := JSDate.make host year month day in
    if Num.isNaN (JSDate.getTime date) then None
    else Some date.

(** The interest at one rate: [(principalNum * rate * dayDiff) / (100 * 365)],
    printed by [toFixed(2)]. *)
Definition entry_for (principalNum dayDiff rate : number) : Entry :=
  let interest :=
    Num.div (Num.mul (Num.mul principalNum rate) dayDiff)
            (Num.mul (Num.of_Z 100) (Num.of_Z 365)) in
  mkEntry rate (Num.toFixed 2 interest).

(** [calculateInterest ()]: reads the three input fields of the state and
    sets the error, the field flags and the results. *)
Definition calculateInterest (st : State) : State :=
  let principalNum := Num.parseFloat (principal st) in
  let startDateObj := parseDateString (startDate st) in
  let endDateObj := parseDateString (endDate st) in
  let st := setPrincipalError false st in
  let st := setStartDateError false st in
  let st := setError (js "") st in
  if blank (principal st) then
    let st := setPrincipalError true st in
    let st := setError msg_principal_required st in
    setResults None st
  else if blank (startDate st) then
    let st := setStartDateError true st in
    let st := setError msg_start_required st in
    setResults None st
  else if (negb (Num.truthy principalNum) || Num.isNaN principalNum
           || Num.leb principalNum (Num.of_Z 0))%bool then
    let st := setError msg_invalid_principal st in
    setResults None st
  else
    match startDateObj, endDateObj with
    | Some startDateObj, Some endDateObj =>
        if JSDate.gtb startDateObj endDateObj then
          let st := setError msg_date_order st in
          setResults None st
        else
          let dayDiff :=
            Num.floor
              (Num.div (Num.sub (JSDate.getTime endDateObj)
                                (JSDate.getTime startDateObj))
                       (Num.mul (Num.mul (Num.mul (Num.of_Z 1000) (Num.of_Z 60))
                                         (Num.of_Z 60))
                                (Num.of_Z 24))) in
          let data := map (entry_for principalNum dayDiff) interestRates in
          setResults (Some (mkResults dayDiff data (startDate st) (endDate st))) st
    | _, _ =>
        let st := setError msg_invalid_dates st in
        setResults None st
    end.

(** The state the screen starts in, with the three fields filled in. *)
Definition inputs (p s e : jsstring) : State :=
  mkState p s e (js "") false false None.

(** What the presentation layer sees after [calculateInterest]. *)
Definition calculate (p s e : jsstring) : State :=
  calculateInterest (inputs p s e).

End Host.

(** India Standard Time, UTC+5:30, the offset [getTodayIST] hard-codes. *)
Definition IST : Z := 19800000.

(** ** The screen, continued: the default end date, the handlers and the
    effect *)

(** [getTodayIST ()]; [nowUTC] is [new Date()], the reading of the clock. *)
Definition getTodayIST (nowUTC : Date) : Date :=
  let offset :=
    Num.mul (Num.mul (Num.of_decimal false 55 (-1)) (Num.of_Z 60)) (Num.of_Z 60000) in
  JSDate.of_number (Num.add (JSDate.getTime nowUTC) offset).

(** The setters of the three input hooks. *)
Definition setPrincipal (v : jsstring) (st : State) : State :=
  mkState v (startDate st) (endDate st) (error st)
          (principalError st) (startDateError st) (results st).

Definition setStartDate (v : jsstring) (st : State) : State :=
  mkState (principal st) v (endDate st) (error st)
          (principalError st) (startDateError st) (results st).

Definition setEndDate (v : jsstring) (st : State) : State :=
  mkState (principal st) (startDate st) v (error st)
          (principalError st) (startDateError st) (results st).

(** What the user does: each event is one call of an [onChangeText]. *)
Inductive Event : Type :=
| ChangePrincipal (value : jsstring)
| ChangeStartDate (value : jsstring)
| ChangeEndDate (value : jsstring).

(** The three [onChangeText] handlers. *)
Definition handle (ev : Event) (st : State) : State :=
  match ev with
  | ChangePrincipal value => setPrincipal value st
  | ChangeStartDate value => setStartDate (formatDateInput value (startDate st)) st
  | ChangeEndDate value => setEndDate (formatDateInput value (endDate st)) st
  end.

(** The dependencies [[principal, startDate, endDate]] of the effect are the
    same in two renders. *)
Definition same_deps (a b : State) : bool :=
  (Str.eqb (principal a) (principal b) && Str.eqb (startDate a) (startDate b)
   && Str.eqb (endDate a) (endDate b))%bool.

Section Screen.

Variable host : JSDate.Host.

(** [formatDateToDDMMYYYY (date)]. *)
Definition formatDateToDDMMYYYY (date : Date) : jsstring :=
  let day := Str.padStart 2 (js "0") (Num.toString (JSDate.getDate host date)) in
  let month :=
    Str.padStart 2 (js "0")
      (Num.toString (Num.add (JSDate.getMonth host date) (Num.of_Z 1))) in
  let year := JSDate.getFullYear host date in
  (day ++ js "/" ++ month ++ js "/" ++ Num.toString year)%list.

(** The state of the first render: the initial values of the [useState]
    hooks. *)
Definition initial (nowUTC : Date) : State :=
  mkState (js "") (js "") (formatDateToDDMMYYYY (getTodayIST nowUTC)) (js "")
          false false None.

(** The body of the effect:
    [if (principal || startDate || endDate) calculateInterest ()]. *)
Definition effect (st : State) : State :=
  if (Str.truthy (principal st) || Str.truthy (startDate st)
      || Str.truthy (endDate st))%bool
  then calculateInterest host st
  else st.

(** The effect runs after the first render. *)
Definition mount (nowUTC : Date) : State := effect (initial nowUTC).

(** One event: the handler sets a field, and the effect runs when a
    dependency changed. *)
Definition step (st : State) (ev : Event) : State :=
  let st' := handle ev st in
  if same_deps st st' then st' else effect st'.

Definition run (st : State) (evs : list Event) : State := fold_left step evs st.

End Screen.

(** ** The specification's vocabulary *)

(** The error taxonomy and its messages. *)
Inductive ValidationError : Type :=
| MissingPrincipal
| MissingStartDate
| InvalidPrincipal
| InvalidDates
| DateOrderViolation.

Definition message (e : ValidationError) : jsstring :=
  match e with
  | MissingPrincipal => msg_principal_required
  | MissingStartDate => msg_start_required
  | InvalidPrincipal => msg_invalid_principal
  | InvalidDates => msg_invalid_dates
  | DateOrderViolation => msg_date_order
  end.

(** The date the three parts of a date text denote: day, month and year in
    this order, each read by [parseInt], the month counted from zero. *)
Definition date_of_parts (h : JSDate.Host) (p0 p1 p2 : jsstring) : Date :=
  JSDate.make h (Num.parseInt p2)
              (Num.sub (Num.parseInt p1) (Num.of_Z 1))
              (Num.parseInt p0).



(** The principal check of [calculateInterest]:
    [!principalNum || isNaN(principalNum) || principalNum <= 0]. *)
Definition invalid_principal (x : number) : bool :=
  (negb (Num.truthy x) || Num.isNaN x || Num.leb x (Num.of_Z 0))%bool.

Definition unparseable_dates (h : JSDate.Host) (s e : jsstring) : bool :=
  match parseDateString h s, parseDateString h e with
  | Some _, Some _ => false
  | _, _ => true
  end.

Definition start_after_end (h : JSDate.Host) (s e : jsstring) : bool :=
  match parseDateString h s, parseDateString h e with
  | Some a, Some b => JSDate.gtb a b
  | _, _ => false
  end.

(** The five checks, in the order of the specification; each is paired with
    the error it raises when it fails. *)
Definition checks (h : JSDate.Host) (p s e : jsstring)
  : list (bool * ValidationError) :=
  [ (blank p, MissingPrincipal);
    (blank s, MissingStartDate);
    (invalid_principal (Num.parseFloat p), InvalidPrincipal);
    (unparseable_dates h s e, InvalidDates);
    (start_after_end h s e, DateOrderViolation) ].

(** The first failing check wins; the later ones are not consulted. *)
Fixpoint first_failing (cs : list (bool * ValidationError)) : option ValidationError :=
  match cs with
  | [] => None
  | (failed, err) :: rest => if failed then Some err else first_failing rest
  end.

(** The Format operation in the specification's words: delete the
    non-digits, keep at most 8 digits, cut them into day (2), month (2) and
    year (4), and join the groups that have a digit with [/]. *)
Fixpoint join_slash (groups : list jsstring) : jsstring :=
  match groups with
  | [] => []
  | [g] => g
  | g :: rest => (g ++ js "/" ++ join_slash rest)%list
  end.

Definition nonempty (g : jsstring) : bool :=
  match g with [] => false | _ => true end.

Definition format_spec (raw : jsstring) : jsstring :=
  let ds := firstn 8 (filter Str.is_digit raw) in
  let day := firstn 2 ds in
  let month := firstn 2 (skipn 2 ds) in
  let year := skipn 4 ds in
  join_slash (filter nonempty [day; month; year]).

(** Regular expressions over code units, matched by derivatives. *)
Module Re.

Inductive re : Type :=
| Void
| Eps
| Class (p : Str.code_unit -> bool)
| Cat (a b : re)
| Alt (a b : re).

Definition Opt (a : re) : re := Alt a Eps.

Fixpoint nullable (r : re) : bool :=
  match r with
  | Void => false
  | Eps => true
  | Class _ => false
  | Cat a b => nullable a && nullable b
  | Alt a b => nullable a || nullable b
  end.

Fixpoint deriv (c : Str.code_unit) (r : re) : re :=
  match r with
  | Void => Void
  | Eps => Void
  | Class p => if p c then Eps else Void
  | Cat a b =>
      if nullable a then Alt (Cat (deriv c a) b) (deriv c b)
      else Cat (deriv c a) b
  | Alt a b => Alt (deriv c a) (deriv c b)
  end.

(** The whole string matches. *)
Fixpoint matches (r : re) (s : jsstring) : bool :=
  match s with
  | [] => nullable r
  | c :: s' => matches (deriv c r) s'
  end.

Definition D : re := Class Str.is_digit.
Definition slash : re := Class (Str.cu_eqb 47%N).

(** [D{1,2}] and [D{1,4}]. *)
Definition D12 : re := Cat D (Opt D).
Definition D14 : re := Cat D (Opt (Cat D (Opt (Cat D (Opt D))))).

(** [D{1,2}(/D{1,2}(/D{1,4})?)?]. *)
Definition date_pattern : re :=
  Cat D12 (Opt (Cat slash (Cat D12 (Opt (Cat slash D14))))).

End Re.

(** ** Vocabulary of the further properties *)

(** A state agrees with its input fields: it is what [calculateInterest]
    leaves for them, or, with the three fields empty, it holds no result and
    one of the two missing-field errors. *)
Definition consistent (h : JSDate.Host) (st : State) : Prop :=
  ((Str.truthy (principal st) || Str.truthy (startDate st)
    || Str.truthy (endDate st))%bool = true ->
   st = calculate h (principal st) (startDate st) (endDate st)) /\
  ((Str.truthy (principal st) || Str.truthy (startDate st)
    || Str.truthy (endDate st))%bool = false ->
   results st = None /\
   (error st = msg_principal_required \/ error st = msg_start_required)).

(** A text that [formatDateInput] leaves as it is, of at most 10 code
    units. *)
Definition normalised (s : jsstring) : Prop :=
  (forall previousValue, formatDateInput s previousValue = s) /\
  (List.length s <= 10)%nat.

(** The events that type a principal, empty the end date and empty the
    principal again. *)
Definition clearing_events : list Event :=
  [ChangePrincipal (js "5"); ChangeEndDate (js ""); ChangePrincipal (js "")].





(** The integers from [0] to [n - 1], for checks by enumeration. *)
Definition upto (n : Z) : list Z := map Z.of_nat (seq 0 (Z.to_nat n)).

(** [padStart(2, '0')] of the decimal text of an integer. *)
Definition pad2 (v : Z) : jsstring := Str.padStart 2 (js "0") (Str.of_N (Z.to_N v)).

(** 1 January 2024, 13:30 UTC, which is 19:00 in India. *)
Definition new_year_evening : Date := JSDate.mkDate (Some 1704115800000).

(** ** Vocabulary of the Parse operation *)

(** The number of slashes in a text. *)
Definition slashes (s : jsstring) : nat :=
  List.length (filter (fun c => Str.cu_eqb c 47%N) s).

Definition is_sign (c : Str.code_unit) : bool :=
  (Str.cu_eqb c 43%N || Str.cu_eqb c 45%N)%bool.

(** A part reads as the integer [z]: white space, an optional sign, then a
    run of decimal digits that ends with the part or at a code unit that is
    no digit.  A lone [0] followed by [x] or [X] is left out: it opens a
    hexadecimal prefix. *)
Definition reads (p : jsstring) (z : Z) : Prop :=
  exists ws sg ds rest neg,
    p = (ws ++ sg ++ ds ++ rest)%list /\
    forallb Str.is_white ws = true /\
    (sg = [] /\ neg = false \/ sg = [43%N] /\ neg = false \/
     sg = [45%N] /\ neg = true) /\
    ds <> [] /\ forallb Str.is_digit ds = true /\
    match rest with
    | c :: _ =>
        Str.is_digit c = false /\
        (ds = [48%N] -> Str.cu_eqb c 120%N = false /\ Str.cu_eqb c 88%N = false)
    | [] => True
    end /\
    z = if neg then - Str.digits_value 10 ds else Str.digits_value 10 ds.

(** A part holds no integer: after the white space and an optional sign it
    ends, or goes on with a code unit that is no digit. *)
Definition unreadable (p : jsstring) : Prop :=
  exists ws sg rest,
    p = (ws ++ sg ++ rest)%list /\
    forallb Str.is_white ws = true /\
    (sg = [] \/ sg = [43%N] \/ sg = [45%N]) /\
    match rest with
    | c :: _ =>
        Str.is_digit c = false /\
        (sg = [] -> Str.is_white c = false /\ is_sign c = false)
    | [] => True
    end.

(** The year that the Date constructor takes for the integer [yr]: the
    years 0 to 99 stand for 1900 to 1999. *)
Definition full_year (yr : Z) : Z :=
  if ((0 <=? yr) && (yr <=? 99))%bool then 1900 + yr else yr.

(** The day number of day [dd] of month [mo], counted from 1, of year
    [yr]: months outside 1 to 12 carry into the years, and days outside the
    month into the months. *)
Definition carried_day (yr mo dd : Z) : Z :=
  let ym := yr + (mo - 1) / 12 in
  JSDate.DayFromYear ym + JSDate.month_start (JSDate.leap ym) ((mo - 1) mod 12)
  + dd - 1.

(** The date that a day, a month and a year denote on a host: the local
    midnight that opens the day, when the host computes the day and the
    instant is within the range of Date, and none otherwise. *)
Definition date_of_integers (h : JSDate.Host) (yr mo dd : Z) : option Date :=
  let y := full_year yr in
  let t := JSDate.UTC h (carried_day y mo dd * JSDate.msPerDay) in
  if (JSDate.handles h y (mo - 1) dd && (Z.abs t <=? JSDate.maxTime))%bool
  then Some (JSDate.mkDate (Some t)) else None.

(** ** Hosts whose offset changes

    Three hosts for the examples.  The first two are accurate around one
    change of the clock each; a local time that the change skips is read
    with the offset before it. *)

(** New York around 10 March 2024: UTC-5 until 07:00 UTC of that day, when
    the clocks go from 02:00 to 03:00, and UTC-4 after. *)
Definition new_york_2024 : JSDate.Host :=
  JSDate.mkHost
    (fun t isUTC =>
       if isUTC
       then if t <? 1710054000000 then -18000000 else -14400000
       else if t <? 1710039600000 then -18000000 else -14400000)
    (fun _ _ _ => true).

(** Kolkata around 1 September 1942: UTC+5:30 until the midnight that
    opens that day, when the clocks go to 01:00, and UTC+6:30 after. *)
Definition kolkata_1942 : JSDate.Host :=
  JSDate.mkHost
    (fun t isUTC =>
       if isUTC
       then if t <? -862637400000 then 19800000 else 23400000
       else if t <? -862614000000 then 19800000 else 23400000)
    (fun _ _ _ => true).

(** A host at India Standard Time whose [MakeDay] refuses a year beyond one
    million or a month beyond ten million in magnitude. *)
Definition bounded_host : JSDate.Host :=
  JSDate.mkHost
    (fun _ _ => IST)
    (fun y m _ => (Z.abs y <=? 1000000) && (Z.abs m <=? 10000000))%bool.

(** ** Proof automation *)

(** Splits [forallb p [a; b; ...] = true] into one fact per element. *)
Ltac split_digits H :=
  repeat (apply andb_true_iff in H;
          let Hc := fresh "Hc" in destruct H as [Hc H]).

(** Runs [Re.date_pattern] over a text of digits and slashes; [sep] proves
    that a digit is no slash. *)
Ltac run_pattern sep :=
  repeat (cbn [Re.matches Re.deriv Re.nullable Re.date_pattern Re.D12 Re.D14
               Re.D Re.slash Re.Opt andb orb];
          change (Str.is_digit 47%N) with false;
          change (Str.cu_eqb 47%N 47%N) with true;
          repeat match goal with
                 | H : Str.is_digit ?c = true |- context [Str.is_digit ?c] =>
                     rewrite H
                 | H : Str.is_digit ?c = true |- context [Str.cu_eqb 47%N ?c] =>
                     rewrite (sep c H)
                 end).

(** Filters a text of digits and slashes down to its digits. *)
Ltac keep_digits :=
  repeat (cbn [filter];
          change (Str.is_digit 47%N) with false;
          repeat match goal with
                 | H : Str.is_digit ?c = true |- context [Str.is_digit ?c] =>
                     rewrite H
                 end).

(** * Properties of the host model *)

(** ** Numbers: integers are computed exactly

    Time values, day counts and the constants of the source are integers
    well below [2 ^ 53].  On them the rounding of every operation is the
    identity; the lemmas of this module say so for conversion, comparison,
    subtraction, division and [Math.floor]. *)

Module NumFacts.
Import Num.

Lemma digits2_pos_size p : Zpos (digits2_pos p) = size (Zpos p).
Proof.
  unfold size. induction p; simpl digits2_pos; rewrite ?Pos2Z.inj_succ, ?IHp.
  - destruct p; simpl; try reflexivity; unfold size; simpl; lia.
  - destruct p; simpl; try reflexivity; unfold size; simpl; lia.
  - reflexivity.
Qed.

Lemma shr_1_double m :
  0 < m -> shr_1 (Build_shr_record (2 * m) false false) = Build_shr_record m false false.
Proof.
  destruct m as [|q|q]; try lia. intros _. reflexivity.
Qed.

Lemma iter_shr_exact t : forall m,
  0 < m ->
  iter_pos shr_1 t (Build_shr_record (m * 2 ^ Zpos t) false false)
  = Build_shr_record m false false.
Proof.
  induction t as [t IH|t IH|]; intros m Hm.
  - cbn [iter_pos].
    replace (m * 2 ^ Zpos t~1) with (2 * ((m * 2 ^ Zpos t) * 2 ^ Zpos t)).
    + rewrite shr_1_double by (apply Z.mul_pos_pos; [apply Z.mul_pos_pos|]; lia).
      rewrite IH by (apply Z.mul_pos_pos; lia). apply IH, Hm.
    + replace (Zpos t~1) with (Zpos t + Zpos t + 1) by lia.
      rewrite !Z.pow_add_r, Z.pow_1_r by lia. ring.
  - cbn [iter_pos].
    replace (m * 2 ^ Zpos t~0) with ((m * 2 ^ Zpos t) * 2 ^ Zpos t).
    + rewrite IH by (apply Z.mul_pos_pos; lia). apply IH, Hm.
    + replace (Zpos t~0) with (Zpos t + Zpos t) by lia.
      rewrite Z.pow_add_r by lia. ring.
  - cbn [iter_pos]. rewrite Z.pow_1_r, Z.mul_comm. apply shr_1_double, Hm.
Qed.

Lemma shr_exact m e n :
  0 < m -> 0 <= n ->
  shr (Build_shr_record (m * 2 ^ n) false false) e n
  = (Build_shr_record m false false, e + n).
Proof.
  intros Hm Hn. destruct n as [|t|t]; try lia.
  - simpl. rewrite Z.mul_1_r, Z.add_0_r. reflexivity.
  - unfold shr. rewrite iter_shr_exact by assumption. reflexivity.
Qed.

Lemma size_pos v : 0 < v -> 0 < size v.
Proof. intros H. unfold size. pose proof (Z.log2_nonneg v). lia. Qed.

Lemma Zdigits2_size m : 0 < m -> Zdigits2 m = size m.
Proof. destruct m; try lia. intros _. apply digits2_pos_size. Qed.

Lemma size_mul_pow2 v n : 0 < v -> 0 <= n -> size (v * 2 ^ n) = size v + n.
Proof. intros. unfold size. rewrite Z.log2_mul_pow2 by lia. lia. Qed.

(** The normalised mantissa of a representable integer. *)
Lemma canon_mantissa v :
  0 < v -> representable v ->
  let m := Z.shiftl v (prec - size v) in
  0 < m /\ size m = prec /\ size v <= 64 /\
  forall n, 0 <= n -> prec <= size v + n ->
            m * 2 ^ (size v + n - prec) = v * 2 ^ n.
Proof.
  intros Hv [Hb Hr] m. rewrite Z.abs_eq in Hb, Hr by lia.
  fold m in Hr. pose proof (size_pos v Hv) as Hs.
  assert (Hm : 0 < m).
  { destruct (Z.lt_trichotomy 0 m) as [H|[H|H]]; auto.
    - rewrite <- H in Hr. rewrite Z.shiftl_0_l in Hr. lia.
    - exfalso. assert (0 <= m); [|lia]. unfold m. apply Z.shiftl_nonneg. lia. }
  assert (Hsz : size v <= 64).
  { unfold size. assert (Z.log2 v < 64); [|lia]. apply Z.log2_lt_pow2; lia. }
  repeat split; auto.
  - unfold m, size. destruct (Z.le_gt_cases (size v) prec) as [Hle|Hgt].
    + rewrite Z.log2_shiftl by (unfold size in *; lia). unfold size in *. lia.
    + replace (prec - (Z.log2 v + 1)) with (- (Z.log2 v + 1 - prec)) by lia.
      rewrite Z.shiftl_opp_r, Z.log2_shiftr by lia. unfold size, prec in *. lia.
  - intros n Hn Hp. destruct (Z.le_gt_cases (size v) prec) as [Hle|Hgt].
    + unfold m. rewrite Z.shiftl_mul_pow2 by lia.
      rewrite <- Z.mul_assoc, <- Z.pow_add_r by lia. f_equal. f_equal. lia.
    + rewrite Z.shiftl_mul_pow2 in Hr by lia.
      rewrite <- Hr at 2. rewrite <- Z.mul_assoc, <- Z.pow_add_r by lia.
      f_equal. f_equal. lia.
Qed.

Lemma round_aux_exact s v n :
  0 < v -> 0 <= n -> representable v -> prec <= size v + n ->
  binary_round_aux prec emax s (v * 2 ^ n) (- n) loc_Exact
  = S754_finite s (Z.to_pos (Z.shiftl v (prec - size v))) (size v - prec).
Proof.
  intros Hv Hn Hr Hp.
  destruct (canon_mantissa v Hv Hr) as (Hm & Hsm & Hsz & Hmul).
  set (m := Z.shiftl v (prec - size v)) in *.
  pose proof (size_pos v Hv) as Hs.
  assert (Hvn : 0 < v * 2 ^ n) by (apply Z.mul_pos_pos; lia).
  unfold binary_round_aux, shr_fexp.
  rewrite Zdigits2_size, size_mul_pow2 by lia.
  replace (fexp prec emax (size v + n + - n) - - n) with (size v + n - prec)
    by (unfold fexp, emin, prec, emax in *; lia).
  cbn [shr_record_of_loc]. rewrite <- (Hmul n Hn Hp).
  rewrite shr_exact by lia.
  cbn [shr_m loc_of_shr_record round_nearest_even].
  rewrite Zdigits2_size, Hsm by lia.
  replace (fexp prec emax (prec + (- n + (size v + n - prec)))
           - (- n + (size v + n - prec))) with 0
    by (unfold fexp, emin, prec, emax in *; lia).
  cbn [shr shr_m]. destruct m as [|p|p]; try lia.
  replace (- n + (size v + n - prec) <=? emax - prec) with true
    by (symmetry; apply Z.leb_le; unfold prec, emax in *; lia).
  f_equal. lia.
Qed.

Lemma iter_xO_Z d : forall p, Zpos (Pos.iter xO p d) = Zpos p * 2 ^ Zpos d.
Proof.
  induction d as [|d IH] using Pos.peano_ind; intros p.
  - simpl. lia.
  - rewrite Pos.iter_succ, Pos2Z.inj_succ, Z.pow_succ_r by lia.
    rewrite Pos2Z.inj_xO, IH. ring.
Qed.

Lemma round_exact s v n mx :
  0 < v -> 0 <= n -> representable v -> Zpos mx = v * 2 ^ n ->
  binary_round prec emax s mx (- n)
  = S754_finite s (Z.to_pos (Z.shiftl v (prec - size v))) (size v - prec).
Proof.
  intros Hv Hn Hr Hmx.
  pose proof (size_pos v Hv) as Hs.
  destruct (canon_mantissa v Hv Hr) as (_ & _ & Hsz & _).
  unfold binary_round, shl_align.
  rewrite digits2_pos_size, Hmx, size_mul_pow2 by lia.
  replace (fexp prec emax (size v + n + - n)) with (size v - prec)
    by (unfold fexp, emin, prec, emax in *; lia).
  destruct (size v - prec - - n) as [|d|d] eqn:Hd.
  - rewrite Hmx. apply round_aux_exact; auto; lia.
  - rewrite Hmx. apply round_aux_exact; auto; lia.
  - rewrite iter_xO_Z, Hmx, <- Z.mul_assoc, <- Z.pow_add_r by lia.
    replace (size v - prec) with (- (n + Zpos d)) at 1 by lia.
    rewrite round_aux_exact; auto; lia.
Qed.

Lemma normalize_exact v n :
  0 <= n -> representable v ->
  binary_normalize prec emax (v * 2 ^ n) (- n) false = canon v.
Proof.
  intros Hn Hr. assert (Hpow : 0 < 2 ^ n) by (apply Z.pow_pos_nonneg; lia).
  destruct v as [|p|p].
  - reflexivity.
  - destruct (Zpos p * 2 ^ n) as [|mx|mx] eqn:Hmx; try lia.
    unfold binary_normalize, canon. apply round_exact; auto; lia.
  - destruct (Zneg p * 2 ^ n) as [|mx|mx] eqn:Hmx; try lia.
    unfold binary_normalize, canon. apply round_exact; auto; lia.
Qed.

Lemma of_Z_canon v : representable v -> of_Z v = canon v.
Proof.
  intros Hr. unfold of_Z. rewrite <- (normalize_exact v 0) by (auto; lia).
  rewrite Z.pow_0_r, Z.mul_1_r. reflexivity.
Qed.

Lemma representable_small v : Z.abs v < 2 ^ prec -> representable v.
Proof.
  intros Hb. split.
  - eapply Z.lt_trans; [exact Hb|]. reflexivity.
  - destruct (Z.eq_dec (Z.abs v) 0) as [->|Hz]; [reflexivity|].
    assert (size (Z.abs v) <= prec).
    { unfold size. assert (Z.log2 (Z.abs v) < prec); [|lia].
      apply Z.log2_lt_pow2; lia. }
    rewrite Z.shiftl_shiftl by lia.
    replace (prec - size (Z.abs v) + (size (Z.abs v) - prec)) with 0 by lia.
    apply Z.shiftl_0_r.
Qed.

Lemma size_small v : 0 < v -> v < 2 ^ prec -> size v <= prec.
Proof.
  intros Hv Hb. unfold size. assert (Z.log2 v < prec); [|lia].
  apply Z.log2_lt_pow2; lia.
Qed.

(** A normalised integer, as sign, mantissa and exponent. *)
Lemma canon_finite v :
  v <> 0 ->
  canon v = S754_finite (v <? 0)
              (Z.to_pos (Z.shiftl (Z.abs v) (prec - size (Z.abs v))))
              (size (Z.abs v) - prec).
Proof. destruct v; intros H; try lia; reflexivity. Qed.

Lemma exact_canon v :
  representable v ->
  exists k, 0 <= k /\ exact (canon v) = Some (v * 2 ^ k, k).
Proof.
  intros Hr. destruct (Z.eq_dec v 0) as [->|Hz].
  { exists 0. split; [lia|reflexivity]. }
  assert (Ha : 0 < Z.abs v) by lia.
  assert (Hr' : representable (Z.abs v)).
  { destruct Hr as [Hb Hr]. split; rewrite Z.abs_idemp; auto. }
  destruct (canon_mantissa _ Ha Hr') as (Hm & Hsm & Hsz & Hmul).
  rewrite canon_finite by assumption. unfold exact.
  set (m := Z.shiftl (Z.abs v) (prec - size (Z.abs v))) in *.
  assert (Hsgn : (if v <? 0 then Zneg (Z.to_pos m) else Zpos (Z.to_pos m))
                 = Z.sgn v * m).
  { destruct v; try lia; simpl Z.ltb; cbv iota; destruct m; simpl; lia. }
  rewrite Hsgn. destruct (0 <=? size (Z.abs v) - prec) eqn:He.
  - apply Z.leb_le in He. exists 0. split; [lia|].
    rewrite <- Z.mul_assoc, Z.pow_0_r, Z.mul_1_r. f_equal. f_equal.
    specialize (Hmul 0). rewrite Z.add_0_r, Z.pow_0_r, Z.mul_1_r in Hmul.
    rewrite Hmul by lia. rewrite Z.mul_comm. apply Z.abs_sgn.
  - apply Z.leb_gt in He. exists (- (size (Z.abs v) - prec)). split; [lia|].
    f_equal. f_equal. unfold m. rewrite Z.shiftl_mul_pow2 by lia.
    replace (prec - size (Z.abs v)) with (- (size (Z.abs v) - prec)) by lia.
    rewrite Z.mul_assoc. f_equal. rewrite Z.mul_comm. apply Z.abs_sgn.
Qed.

Lemma compare_scale a b c : 0 < c -> (a * c ?= b * c) = (a ?= b).
Proof.
  intros Hc. destruct (Z.compare_spec a b) as [->|H|H].
  - apply Z.compare_refl.
  - apply Z.compare_lt_iff. nia.
  - apply Z.compare_gt_iff. nia.
Qed.

Lemma cmp_of_Z a b :
  representable a -> representable b ->
  cmp (of_Z a) (of_Z b) = Some (a ?= b).
Proof.
  intros Ha Hb. rewrite !of_Z_canon by assumption.
  destruct (exact_canon a Ha) as (j & Hj & Ea).
  destruct (exact_canon b Hb) as (k & Hk & Eb).
  assert (Hcmp : forall x y, exact x = Some (a * 2 ^ j, j) ->
                             exact y = Some (b * 2 ^ k, k) ->
                             is_finite x = true -> is_finite y = true ->
                             cmp x y = Some (a ?= b)).
  { intros x y Ex Ey Fx Fy.
    assert (E : (a * 2 ^ j * 2 ^ k ?= b * 2 ^ k * 2 ^ j) = (a ?= b)).
    { replace (a * 2 ^ j * 2 ^ k) with (a * (2 ^ j * 2 ^ k)) by ring.
      replace (b * 2 ^ k * 2 ^ j) with (b * (2 ^ j * 2 ^ k)) by ring.
      apply compare_scale. apply Z.mul_pos_pos; apply Z.pow_pos_nonneg; lia. }
    destruct x, y; try discriminate; unfold cmp; rewrite Ex, Ey, E; reflexivity. }
  apply Hcmp; auto; [destruct a|destruct b]; reflexivity.
Qed.

Lemma ltb_of_Z a b :
  representable a -> representable b -> ltb (of_Z a) (of_Z b) = (a <? b).
Proof.
  intros Ha Hb. unfold ltb. rewrite cmp_of_Z by assumption.
  unfold Z.ltb. destruct (a ?= b); reflexivity.
Qed.

Lemma floor_of_Z v : representable v -> floor (of_Z v) = of_Z v.
Proof.
  intros Hr. rewrite of_Z_canon by assumption.
  destruct (Z.eq_dec v 0) as [->|Hz]; [reflexivity|].
  assert (Ha : 0 < Z.abs v) by lia.
  assert (Hr' : representable (Z.abs v)).
  { destruct Hr as [Hb Hr]. split; rewrite Z.abs_idemp; auto. }
  destruct (canon_mantissa _ Ha Hr') as (Hm & Hsm & Hsz & Hmul).
  rewrite canon_finite by assumption. unfold floor.
  set (m := Z.shiftl (Z.abs v) (prec - size (Z.abs v))) in *.
  destruct (0 <=? size (Z.abs v) - prec) eqn:He; [reflexivity|].
  apply Z.leb_gt in He.
  assert (Hsgn : (if v <? 0 then Zneg (Z.to_pos m) else Zpos (Z.to_pos m))
                 = v * 2 ^ (- (size (Z.abs v) - prec))).
  { unfold m. rewrite Z.shiftl_mul_pow2 by lia.
    replace (prec - size (Z.abs v)) with (- (size (Z.abs v) - prec)) by lia.
    assert (0 < 2 ^ (- (size (Z.abs v) - prec))) by (apply Z.pow_pos_nonneg; lia).
    assert (0 < Z.abs v * 2 ^ (- (size (Z.abs v) - prec))) by (apply Z.mul_pos_pos; lia).
    destruct v as [|p|p]; try lia; simpl Z.ltb; cbv iota; simpl Z.abs in *.
    - rewrite Z2Pos.id by lia. reflexivity.
    - rewrite <- (Pos2Z.opp_pos (Z.to_pos _)), Z2Pos.id by lia.
      change (Zneg p <? 0) with true. cbv iota.
      change (Zneg p) with (- Zpos p). ring. }
  rewrite Hsgn, Z.div_mul by (apply Z.pow_nonzero; lia).
  rewrite <- canon_finite, <- of_Z_canon by assumption.
  unfold of_Z. destruct v; try lia; reflexivity.
Qed.

Lemma shl_align_fst m e ez :
  ez <= e -> Zpos (fst (shl_align m e ez)) = Zpos m * 2 ^ (e - ez).
Proof.
  intros H. unfold shl_align. destruct (ez - e) as [|d|d] eqn:Hd; try lia.
  - replace (e - ez) with 0 by lia. simpl. lia.
  - cbn [fst]. rewrite iter_xO_Z. f_equal. f_equal. lia.
Qed.

Lemma aligned v ez :
  v <> 0 -> Z.abs v < 2 ^ prec -> ez <= size (Z.abs v) - prec ->
  cond_Zopp (v <? 0)
    (Zpos (fst (shl_align (Z.to_pos (Z.shiftl (Z.abs v) (prec - size (Z.abs v))))
                          (size (Z.abs v) - prec) ez)))
  = v * 2 ^ (- ez).
Proof.
  intros Hz Hb He. assert (Ha : 0 < Z.abs v) by lia.
  pose proof (size_small _ Ha Hb) as Hs.
  rewrite shl_align_fst by assumption.
  rewrite Z.shiftl_mul_pow2 by lia.
  assert (0 < 2 ^ (prec - size (Z.abs v))) by (apply Z.pow_pos_nonneg; lia).
  rewrite Z2Pos.id by (apply Z.mul_pos_pos; lia).
  rewrite <- Z.mul_assoc, <- Z.pow_add_r by lia.
  replace (prec - size (Z.abs v) + (size (Z.abs v) - prec - ez)) with (- ez) by lia.
  destruct v as [|p|p]; try lia.
  - reflexivity.
  - change (Zneg p <? 0) with true. cbn [cond_Zopp Z.abs].
    change (Zneg p) with (- Zpos p). ring.
Qed.

(** Subtraction of integers is exact when the difference is representable. *)
Lemma sub_of_Z a b :
  Z.abs a < 2 ^ prec -> Z.abs b < 2 ^ prec -> representable (a - b) ->
  sub (of_Z a) (of_Z b) = of_Z (a - b).
Proof.
  intros Ha Hb Hr.
  rewrite (of_Z_canon a), (of_Z_canon b), (of_Z_canon (a - b))
    by auto using representable_small.
  destruct (Z.eq_dec a 0) as [->|Hza]; destruct (Z.eq_dec b 0) as [->|Hzb].
  - reflexivity.
  - rewrite Z.sub_0_l, (canon_finite b), (canon_finite (- b)) by lia.
    cbn [canon sub SFsub].
    rewrite Z.abs_opp. f_equal. destruct b; try lia; reflexivity.
  - rewrite Z.sub_0_r, (canon_finite a) by lia. reflexivity.
  - rewrite (canon_finite a), (canon_finite b) by assumption.
    assert (0 < Z.abs a) by lia. assert (0 < Z.abs b) by lia.
    pose proof (size_small (Z.abs a)). pose proof (size_small (Z.abs b)).
    cbn [sub SFsub]. cbv zeta.
    set (ez := Z.min (size (Z.abs a) - prec) (size (Z.abs b) - prec)).
    rewrite !aligned by (auto; lia).
    rewrite <- Z.mul_sub_distr_r.
    rewrite <- (Z.opp_involutive ez) at 2.
    apply normalize_exact; [lia|assumption].
Qed.

Lemma div_eucl_exact q b : 0 < b -> Z.div_eucl (q * b) b = (q, 0).
Proof.
  intros Hb. destruct (Z.div_eucl (q * b) b) as [q' r'] eqn:E.
  assert (Hq : q' = q * b / b) by (unfold Z.div; rewrite E; reflexivity).
  assert (Hr : r' = (q * b) mod b) by (unfold Z.modulo; rewrite E; reflexivity).
  rewrite Z.div_mul in Hq by lia. rewrite Z.mod_mul in Hr by lia.
  congruence.
Qed.

Lemma new_location_exact n : new_location n 0 = loc_Exact.
Proof. unfold new_location. destruct (Z.even n); reflexivity. Qed.

Lemma div_core_exact mx ex my ey q :
  size (Zpos mx) = prec -> size (Zpos my) = prec ->
  -500 <= ex - ey <= 500 ->
  Zpos mx * 2 ^ prec = q * Zpos my ->
  SFdiv_core_binary prec emax (Zpos mx) ex (Zpos my) ey
  = (q, ex - ey - prec, loc_Exact).
Proof.
  intros Hx Hy He Hq. unfold SFdiv_core_binary.
  rewrite !Zdigits2_size, Hx, Hy by lia.
  replace (Z.min (fexp prec emax (prec + ex - (prec + ey))) (ex - ey))
    with (ex - ey - prec) by (unfold fexp, emin, prec, emax; lia).
  replace (ex - ey - (ex - ey - prec)) with prec by lia.
  change (match prec with Z0 => Zpos mx | Zpos _ => Z.shiftl (Zpos mx) prec | Zneg _ => 0 end)
    with (Z.shiftl (Zpos mx) prec).
  rewrite Z.shiftl_mul_pow2, Hq by (unfold prec; lia).
  rewrite div_eucl_exact by lia. rewrite new_location_exact. reflexivity.
Qed.

(** Division of integers is exact when the quotient is an integer. *)
Lemma div_of_Z k c :
  0 < k -> 0 < c -> k < 2 ^ prec -> c < 2 ^ prec -> representable (k * c) ->
  div (of_Z (k * c)) (of_Z c) = of_Z k.
Proof.
  intros Hk Hc Hkb Hcb Hr.
  assert (Hkc : 0 < k * c) by (apply Z.mul_pos_pos; lia).
  assert (Hrk : representable k) by (apply representable_small; lia).
  assert (Hrc : representable c) by (apply representable_small; lia).
  rewrite !of_Z_canon by assumption.
  destruct (canon_mantissa _ Hkc Hr) as (Hm1 & Hs1 & Hz1 & Hmul1).
  destruct (canon_mantissa _ Hc Hrc) as (Hm2 & Hs2 & Hz2 & Hmul2).
  pose proof (size_small _ Hk Hkb) as Hsk.
  pose proof (size_small _ Hc Hcb) as Hsc.
  pose proof (size_pos _ Hk). pose proof (size_pos _ Hc). pose proof (size_pos _ Hkc).
  assert (Hsz : size (k * c) <= size k + size c).
  { unfold size. pose proof (Z.log2_mul_above k c). lia. }
  rewrite (canon_finite (k * c)), (canon_finite c), (canon_finite k) by lia.
  rewrite !Z.abs_eq by lia.
  replace (k * c <? 0) with false by (symmetry; apply Z.ltb_ge; lia).
  replace (c <? 0) with false by (symmetry; apply Z.ltb_ge; lia).
  replace (k <? 0) with false by (symmetry; apply Z.ltb_ge; lia).
  set (m1 := Z.shiftl (k * c) (prec - size (k * c))) in *.
  set (m2 := Z.shiftl c (prec - size c)) in *.
  set (n := prec - size (k * c) + size c).
  cbn [div SFdiv].
  rewrite (div_core_exact _ _ _ _ (k * 2 ^ n)).
  - cbn [xorb]. replace (size (k * c) - prec - (size c - prec) - prec) with (- n)
      by (unfold n; lia).
    apply round_aux_exact; auto; unfold n; lia.
  - rewrite Z2Pos.id; assumption.
  - rewrite Z2Pos.id; assumption.
  - unfold prec in *. lia.
  - rewrite !Z2Pos.id by assumption.
    specialize (Hmul1 (2 * prec - size (k * c))).
    replace (size (k * c) + (2 * prec - size (k * c)) - prec) with prec in Hmul1 by lia.
    rewrite Hmul1 by (unfold prec in *; lia).
    unfold m2. rewrite Z.shiftl_mul_pow2 by lia.
    replace (k * 2 ^ n * (c * 2 ^ (prec - size c)))
      with (k * c * (2 ^ n * 2 ^ (prec - size c))) by ring.
    rewrite <- Z.pow_add_r by (unfold n; lia).
    f_equal. f_equal. unfold n. lia.
Qed.

Lemma div_zero_of_Z c :
  0 < c -> c < 2 ^ prec -> div (of_Z 0) (of_Z c) = of_Z 0.
Proof.
  intros Hc Hb. rewrite (of_Z_canon c) by (apply representable_small; lia).
  rewrite canon_finite by lia.
  replace (c <? 0) with false by (symmetry; apply Z.ltb_ge; lia).
  reflexivity.
Qed.

Lemma representable_even v :
  Z.abs v < 2 ^ 54 -> Z.even v = true -> representable v.
Proof.
  intros Hb He.
  destruct (Z.lt_ge_cases (Z.abs v) (2 ^ prec)) as [Hs|Hl];
    [apply representable_small, Hs|].
  assert (Hsz : size (Z.abs v) = 54).
  { unfold size. assert (Z.log2 (Z.abs v) = 53); [|lia].
    apply Z.log2_unique; unfold prec in *; lia. }
  split; [eapply Z.lt_trans; [exact Hb|reflexivity]|].
  rewrite Hsz. change (54 - prec) with 1.
  change (Z.shiftl (Z.abs v) (prec - 54)) with (Z.shiftr (Z.abs v) 1).
  rewrite Z.shiftr_div_pow2, Z.shiftl_mul_pow2 by lia.
  change (2 ^ 1) with 2.
  assert (He' : Z.even (Z.abs v) = true).
  { destruct (Z.abs_eq_or_opp v) as [E|E]; rewrite E, ?Z.even_opp; exact He. }
  apply Z.even_spec in He'. destruct He' as [k Hk]. rewrite Hk.
  rewrite (Z.mul_comm 2 k), Z.div_mul by lia. reflexivity.
Qed.

Lemma of_Z_finite v : representable v -> is_finite (of_Z v) = true.
Proof. intros H. rewrite of_Z_canon by assumption. destruct v; reflexivity. Qed.

Lemma of_Z_not_nan v : representable v -> isNaN (of_Z v) = false.
Proof. intros H. rewrite of_Z_canon by assumption. destruct v; reflexivity. Qed.

Lemma trunc_of_Z v : representable v -> trunc (of_Z v) = Some v.
Proof.
  intros H. rewrite of_Z_canon by assumption.
  destruct (exact_canon v H) as (k & Hk & E). unfold trunc. rewrite E.
  rewrite Z.quot_mul by (apply Z.pow_nonzero; lia). reflexivity.
Qed.

Lemma leb_zero_of_Z k : 0 <= k -> representable k -> leb (of_Z 0) (of_Z k) = true.
Proof.
  intros Hk Hr. unfold leb. rewrite cmp_of_Z by (auto using representable_small; apply representable_small; reflexivity).
  destruct (Z.compare_spec 0 k); try reflexivity. lia.
Qed.

(** The constants of the source. *)
Lemma msPerDay_num :
  mul (mul (mul (of_Z 1000) (of_Z 60)) (of_Z 60)) (of_Z 24) = of_Z JSDate.msPerDay.
Proof. vm_compute. reflexivity. Qed.



Lemma add_of_Z a b :
  Z.abs a < 2 ^ prec -> Z.abs b < 2 ^ prec -> representable (a + b) ->
  add (of_Z a) (of_Z b) = of_Z (a + b).
Proof.
  intros Ha Hb Hr.
  rewrite (of_Z_canon a), (of_Z_canon b), (of_Z_canon (a + b))
    by auto using representable_small.
  destruct (Z.eq_dec a 0) as [->|Hza]; destruct (Z.eq_dec b 0) as [->|Hzb].
  - reflexivity.
  - rewrite Z.add_0_l, (canon_finite b) by lia. reflexivity.
  - rewrite Z.add_0_r, (canon_finite a) by lia. reflexivity.
  - rewrite (canon_finite a), (canon_finite b) by assumption.
    assert (0 < Z.abs a) by lia. assert (0 < Z.abs b) by lia.
    pose proof (size_small (Z.abs a)). pose proof (size_small (Z.abs b)).
    cbn [add SFadd]. cbv zeta.
    set (ez := Z.min (size (Z.abs a) - prec) (size (Z.abs b) - prec)).
    rewrite !aligned by (auto; lia).
    rewrite <- Z.mul_add_distr_r.
    rewrite <- (Z.opp_involutive ez) at 2.
    apply normalize_exact; [lia|assumption].
Qed.

Lemma of_decimal_int v : 0 <= v -> of_decimal false v 0 = of_Z v.
Proof.
  intros Hv. destruct v as [|p|p]; [reflexivity| |lia].
  unfold of_decimal, of_Z. cbn [Z.leb Z.compare Z.pow Z.to_pos binary_normalize].
  rewrite Pos.mul_1_r. reflexivity.
Qed.

(** The offset of [getTodayIST], [5.5 * 60 * 60000]. *)
Lemma offset_num :
  mul (mul (of_decimal false 55 (-1)) (of_Z 60)) (of_Z 60000) = of_Z 19800000.
Proof. vm_compute. reflexivity. Qed.

(** *** The integer quotient of two integers

    The source divides a difference of time values by the milliseconds of a
    day and rounds down.  The division rounds to the nearest Number first;
    the lemmas below follow the quotient through the rounding. *)

Lemma div_eucl_div_mod a b : Z.div_eucl a b = (a / b, a mod b).
Proof. unfold Z.div, Z.modulo. destruct (Z.div_eucl a b). reflexivity. Qed.

Lemma shr_1_nonneg m r s :
  0 <= m ->
  shr_1 (Build_shr_record m r s) = Build_shr_record (m / 2) (Z.odd m) (r || s).
Proof.
  intros Hm. destruct m as [|p|p]; [reflexivity| |lia].
  destruct p as [p|p|]; cbn [shr_1].
  - f_equal; [|reflexivity..]; rewrite Pos2Z.inj_xI; apply (Z.div_unique _ _ _ 1); lia.
  - f_equal; [|reflexivity..]; rewrite Pos2Z.inj_xO; apply (Z.div_unique _ _ _ 0); lia.
  - reflexivity.
Qed.

Lemma size_bits v k : 0 <= k -> 2 ^ k <= v < 2 ^ (k + 1) -> size v = k + 1.
Proof.
  intros Hk Hv. unfold size. f_equal. apply Z.log2_unique; [lia|]. 
  replace (Z.succ k) with (k + 1) by lia. exact Hv.
Qed.

Lemma size_bounds v : 0 < v -> 2 ^ (size v - 1) <= v < 2 ^ size v.
Proof.
  intros Hv. unfold size. replace (Z.log2 v + 1 - 1) with (Z.log2 v) by lia.
  pose proof (Z.log2_spec v Hv). replace (Z.log2 v + 1) with (Z.succ (Z.log2 v)) by lia.
  exact H.
Qed.

(** Rounding to nearest moves a mantissa up by at most one, and only from
    the middle of the interval on. *)
Lemma round_nearest_even_cases m l :
  round_nearest_even m l = m \/
  (round_nearest_even m l = m + 1 /\ (l = loc_Inexact Eq \/ l = loc_Inexact Gt)).
Proof.
  destruct l as [|[]]; cbn [round_nearest_even]; auto.
  destruct (Z.even m); auto.
Qed.

(** The Number that a mantissa of 53 or 54 bits rounds to. *)
Definition rounded (Q e : Z) (l : location) : Z * Z :=
  if Q <? 2 ^ 53
  then (round_nearest_even Q l, e)
  else (round_nearest_even (Q / 2)
          (loc_of_shr_record
             (Build_shr_record (Q / 2) (Z.odd Q)
                (shr_r (shr_record_of_loc Q l) || shr_s (shr_record_of_loc Q l)))),
        e + 1).

Lemma round_aux_rounded Q e l :
  2 ^ 52 <= Q < 2 ^ 54 -> - 1000 <= e <= 900 ->
  binary_round_aux prec emax false Q e l
  = let '(m1, e1) := rounded Q e l in
    if m1 =? 2 ^ 53 then S754_finite false (Z.to_pos (2 ^ 52)) (e1 + 1)
    else S754_finite false (Z.to_pos m1) e1.
Proof.
  intros HQ He. unfold binary_round_aux, shr_fexp, rounded.
  assert (HQ0 : 0 < Q) by lia.
  rewrite (Zdigits2_size Q HQ0).
  assert (second : forall m1 e1,
            2 ^ 52 <= m1 <= 2 ^ 53 -> - 1000 <= e1 <= 901 ->
            (let '(mrs'', e'') :=
               shr (shr_record_of_loc m1 loc_Exact) e1
                   (fexp prec emax (Zdigits2 m1 + e1) - e1) in
             match shr_m mrs'' with
             | 0 => S754_zero false
             | Z.pos m => if e'' <=? emax - prec then S754_finite false m e''
                          else S754_infinity false
             | Z.neg _ => S754_nan
             end)
            = if m1 =? 2 ^ 53 then S754_finite false (Z.to_pos (2 ^ 52)) (e1 + 1)
              else S754_finite false (Z.to_pos m1) e1).
  { intros m1 e1 Hm He1. rewrite Zdigits2_size by lia.
    destruct (Z.eqb_spec m1 (2 ^ 53)) as [->|Hne].
    - rewrite (size_bits (2 ^ 53) 53) by lia.
      replace (fexp prec emax (53 + 1 + e1) - e1) with 1
        by (unfold fexp, emin, prec, emax; lia).
      cbn [shr_record_of_loc shr iter_pos].
      rewrite shr_1_nonneg by lia.
      cbn [shr_m]. change (2 ^ 53 / 2) with (2 ^ 52).
      change (2 ^ 52) with (Zpos (Z.to_pos (2 ^ 52))) at 1. cbv iota.
      replace (e1 + 1 <=? emax - prec) with true
        by (symmetry; apply Z.leb_le; unfold emax, prec; lia).
      reflexivity.
    - rewrite (size_bits m1 52) by lia.
      replace (fexp prec emax (52 + 1 + e1) - e1) with 0
        by (unfold fexp, emin, prec, emax; lia).
      cbn [shr_record_of_loc shr shr_m].
      destruct m1 as [|p|p]; try lia.
      replace (e1 <=? emax - prec) with true
        by (symmetry; apply Z.leb_le; unfold emax, prec; lia).
      reflexivity. }
  destruct (Z.ltb_spec Q (2 ^ 53)) as [Hlt|Hge].
  - rewrite (size_bits Q 52) by lia.
    replace (fexp prec emax (52 + 1 + e) - e) with 0
      by (unfold fexp, emin, prec, emax; lia).
    cbn [shr].
    assert (E : loc_of_shr_record (shr_record_of_loc Q l) = l)
      by (destruct l as [|[]]; reflexivity).
    assert (M : shr_m (shr_record_of_loc Q l) = Q)
      by (destruct l as [|[]]; reflexivity).
    rewrite E, M. apply second; [|lia].
    destruct (round_nearest_even_cases Q l) as [->|[-> _]]; lia.
  - rewrite (size_bits Q 53) by lia.
    replace (fexp prec emax (53 + 1 + e) - e) with 1
      by (unfold fexp, emin, prec, emax; lia).
    cbn [shr iter_pos].
    assert (M : shr_m (shr_record_of_loc Q l) = Q)
      by (destruct l as [|[]]; reflexivity).
    destruct (shr_record_of_loc Q l) as [m r s]. cbn [shr_m shr_r shr_s] in *.
    subst m. rewrite shr_1_nonneg by lia. cbn [shr_m].
    apply second; [|lia].
    assert (2 ^ 52 <= Q / 2 < 2 ^ 53).
    { change (2 ^ 54) with (2 * 2 ^ 53) in HQ. change (2 ^ 53) with (2 * 2 ^ 52) in Hge.
      split; [apply Z.div_le_lower_bound; lia|apply Z.div_lt_upper_bound; lia]. }
    match goal with
    | |- context [round_nearest_even ?m ?l'] =>
        destruct (round_nearest_even_cases m l') as [->|[-> _]]
    end; lia.
Qed.


Lemma div_core_general mx ex my ey :
  size (Zpos mx) = prec -> size (Zpos my) = prec ->
  -500 <= ex - ey <= 500 ->
  SFdiv_core_binary prec emax (Zpos mx) ex (Zpos my) ey
  = (Zpos mx * 2 ^ prec / Zpos my, ex - ey - prec,
     new_location (Zpos my) ((Zpos mx * 2 ^ prec) mod Zpos my)).
Proof.
  intros Hx Hy He. unfold SFdiv_core_binary.
  rewrite !Zdigits2_size, Hx, Hy by lia.
  replace (Z.min (fexp prec emax (prec + ex - (prec + ey))) (ex - ey))
    with (ex - ey - prec) by (unfold fexp, emin, prec, emax; lia).
  replace (ex - ey - (ex - ey - prec)) with prec by lia.
  change (match prec with Z0 => Zpos mx | Zpos _ => Z.shiftl (Zpos mx) prec | Zneg _ => 0 end)
    with (Z.shiftl (Zpos mx) prec).
  rewrite Z.shiftl_mul_pow2 by (unfold prec; lia).
  rewrite div_eucl_div_mod. reflexivity.
Qed.

Lemma new_location_half nb k :
  new_location nb k = loc_Inexact Eq \/ new_location nb k = loc_Inexact Gt ->
  nb <= 2 * k.
Proof.
  unfold new_location, new_location_even, new_location_odd.
  destruct (Z.even nb); destruct (k =? 0); intros [H|H]; try discriminate;
    assert (H' := f_equal (fun l => match l with loc_Inexact c => c | _ => Eq end) H);
    cbv beta iota in H'; clear H.
  - apply Z.compare_eq in H'. lia.
  - apply Z.compare_gt_iff in H'. lia.
  - destruct (Z.compare_spec (2 * k + 1) nb); try discriminate.
  - destruct (Z.compare_spec (2 * k + 1) nb); try discriminate. lia.
Qed.

Lemma loc_of_shr_record_half m r s :
  loc_of_shr_record (Build_shr_record m r s) = loc_Inexact Eq \/
  loc_of_shr_record (Build_shr_record m r s) = loc_Inexact Gt ->
  r = true.
Proof. destruct r, s; cbn; intros [H|H]; try discriminate; reflexivity. Qed.

(** The quotient of two integers below 2^53, rounded to the nearest Number
    and then rounded down, is the integer quotient: rounding to nearest never
    carries the quotient up to the next integer. *)
Lemma floor_div_of_Z d c :
  0 <= d < 2 ^ prec -> 4 <= c < 2 ^ prec ->
  floor (div (of_Z d) (of_Z c)) = of_Z (d / c).
Proof.
  intros Hd Hc.
  destruct (Z.eq_dec d 0) as [->|Hd0].
  { rewrite div_zero_of_Z by lia. rewrite Z.div_0_l by lia.
    apply floor_of_Z, representable_small. reflexivity. }
  assert (Hdp : 0 < d) by lia. assert (Hcp : 0 < c) by lia.
  assert (Hrd : representable d) by (apply representable_small; lia).
  assert (Hrc : representable c) by (apply representable_small; lia).
  rewrite (of_Z_canon d), (of_Z_canon c) by assumption.
  destruct (canon_mantissa _ Hdp Hrd) as (Hm1 & Hs1 & _ & _).
  destruct (canon_mantissa _ Hcp Hrc) as (Hm2 & Hs2 & _ & _).
  pose proof (size_small _ Hdp (proj2 Hd)) as Hsd.
  pose proof (size_small _ Hcp (proj2 Hc)) as Hsc.
  pose proof (size_pos _ Hdp) as Hsd0.
  pose proof (size_bounds _ Hcp) as Hcb.
  assert (Hsc3 : 3 <= size c).
  { destruct (Z.lt_ge_cases (size c) 3) as [H|H]; [|exact H].
    exfalso. assert (2 ^ size c <= 2 ^ 2) by (apply Z.pow_le_mono_r; lia).
    change (2 ^ 2) with 4 in *. lia. }
  rewrite (canon_finite d), (canon_finite c) by lia.
  rewrite !Z.abs_eq by lia.
  replace (d <? 0) with false by (symmetry; apply Z.ltb_ge; lia).
  replace (c <? 0) with false by (symmetry; apply Z.ltb_ge; lia).
  set (md := Z.shiftl d (prec - size d)) in *.
  set (mc := Z.shiftl c (prec - size c)) in *.
  pose proof (size_bounds _ Hm1) as Bd. pose proof (size_bounds _ Hm2) as Bc.
  rewrite Hs1 in Bd. rewrite Hs2 in Bc. unfold prec in Bd, Bc.
  change (2 ^ (53 - 1)) with (2 ^ 52) in *.
  cbn [div SFdiv]. cbn [xorb].
  rewrite div_core_general
    by (rewrite ?Z2Pos.id by assumption; auto; unfold prec in *; lia).
  rewrite !Z2Pos.id by assumption.
  set (e := size d - prec - (size c - prec) - prec).
  set (Q := md * 2 ^ prec / mc).
  set (R := (md * 2 ^ prec) mod mc).
  assert (HQ : 2 ^ 52 <= Q < 2 ^ 54).
  { unfold Q, prec. split.
    - apply Z.div_le_lower_bound; [lia|].
      change (2 ^ 53) with (2 * 2 ^ 52) in *. nia.
    - apply Z.div_lt_upper_bound; [lia|].
      change (2 ^ 54) with (2 * 2 ^ 53) in *.
      change (2 ^ 53) with (2 * 2 ^ 52) in *. nia. }
  rewrite round_aux_rounded by (auto; unfold e, prec in *; lia).
  (* the quotient and the remainder in terms of d and c *)
  set (n0 := prec + size c - size d).
  set (b := prec - size c).
  assert (Hn0 : 0 <= n0) by (unfold n0; lia).
  assert (Hb : 0 <= b) by (unfold b; lia).
  assert (Pb : 0 < 2 ^ b) by (apply Z.pow_pos_nonneg; lia).
  assert (EN : md * 2 ^ prec = d * 2 ^ n0 * 2 ^ b).
  { unfold md. rewrite Z.shiftl_mul_pow2 by lia.
    rewrite <- !Z.mul_assoc, <- !Z.pow_add_r by (unfold n0, b, prec in *; lia).
    f_equal. f_equal. unfold n0, b. lia. }
  assert (EC : mc = c * 2 ^ b).
  { unfold mc. rewrite Z.shiftl_mul_pow2 by lia. reflexivity. }
  assert (EQ : Q = d * 2 ^ n0 / c).
  { unfold Q. rewrite EN, EC. apply Z.div_mul_cancel_r; lia. }
  assert (ER : R = (d * 2 ^ n0) mod c * 2 ^ b).
  { unfold R. rewrite EN, EC. apply Z.mul_mod_distr_r; lia. }
  (* the rounded mantissa and what carries it up *)
  assert (key : forall m1 e1, rounded Q e (new_location mc R) = (m1, e1) ->
            exists n, e1 = - n /\ 2 <= n /\ m1 / 2 ^ n = d / c /\
                      2 ^ 52 <= m1 <= 2 ^ 53).
  { intros m1 e1. unfold rounded.
    assert (arith : forall n m0 m,
              0 <= n -> c < 2 * 2 ^ n ->
              m0 = d * 2 ^ n / c ->
              (m = m0 \/ (m = m0 + 1 /\ c <= 2 * ((d * 2 ^ n) mod c))) ->
              m / 2 ^ n = d / c).
    { intros n m0 m Hn Hcn Hm0 Hm.
      assert (PP : 0 < 2 ^ n) by (apply Z.pow_pos_nonneg; lia).
      set (P := 2 ^ n) in *.
      pose proof (Z.div_mod d c ltac:(lia)) as E1.
      pose proof (Z.mod_pos_bound d c Hcp) as B1.
      pose proof (Z.div_mod (d * P) c ltac:(lia)) as E2.
      pose proof (Z.mod_pos_bound (d * P) c Hcp) as B2.
      rewrite <- Hm0 in E2.
      set (k := d / c) in *. set (rd := d mod c) in *.
      set (r := (d * P) mod c) in *.
      assert (E3 : c * m0 + r = c * (k * P) + rd * P) by (rewrite <- E2, E1 at 1; ring).
      assert (L : k * P <= m0) by nia.
      assert (U : m0 < (k + 1) * P) by nia.
      symmetry. apply (Z.div_unique m P k (m - P * k)); [|lia].
      left. destruct Hm as [->|[-> Hh]]; [lia|].
      split; [lia|].
      assert (m0 <> (k + 1) * P - 1); [|lia].
      intros X. subst m0. nia. }
    destruct (Z.ltb_spec Q (2 ^ 53)) as [Hlt|Hge]; intros E; injection E as <- <-.
    - exists (- e). split; [lia|]. split; [unfold e, prec in *; lia|]. split.
      + apply (arith (- e) Q).
        * unfold e, prec in *; lia.
        * replace (- e) with (n0 + (size c - size c)) by (unfold e, n0; lia).
          replace (n0 + (size c - size c)) with (size c + (prec - size d))
            by (unfold n0; lia).
          rewrite Z.pow_add_r by lia.
          assert (1 <= 2 ^ (prec - size d))
            by (pose proof (Z.pow_pos_nonneg 2 (prec - size d)); lia).
          nia.
        * replace (- e) with n0 by (unfold e, n0; lia). exact EQ.
        * destruct (round_nearest_even_cases Q (new_location mc R)) as [->|[-> Hl]];
            [left; reflexivity|right; split; [reflexivity|]].
          apply new_location_half in Hl.
          replace (- e) with n0 by (unfold e, n0; lia).
          rewrite EC, ER in Hl. nia.
      + destruct (round_nearest_even_cases Q (new_location mc R)) as [->|[-> _]]; lia.
    - assert (HQ2 : 2 ^ 52 <= Q / 2 < 2 ^ 53).
      { change (2 ^ 54) with (2 * 2 ^ 53) in HQ.
        change (2 ^ 53) with (2 * 2 ^ 52) in Hge.
        split; [apply Z.div_le_lower_bound; lia|apply Z.div_lt_upper_bound; lia]. }
      assert (Hsd52 : size d <= 52 \/ size d = 53) by (unfold prec in *; lia).
      assert (Hn1 : 1 <= n0) by (unfold n0, prec in *; lia).
      exists (- (e + 1)). split; [lia|]. split; [unfold e, prec in *; lia|]. split.
      + replace (- (e + 1)) with (n0 - 1) by (unfold e, n0; lia).
        assert (E2 : 2 ^ n0 = 2 * 2 ^ (n0 - 1)).
        { rewrite <- Z.pow_succ_r by lia. f_equal. lia. }
        assert (Q2 : Q / 2 = d * 2 ^ (n0 - 1) / c).
        { rewrite EQ, E2. rewrite Z.div_div by lia.
          replace (d * (2 * 2 ^ (n0 - 1))) with (d * 2 ^ (n0 - 1) * 2) by ring.
          apply Z.div_mul_cancel_r; lia. }
        apply (arith (n0 - 1) (Q / 2)).
        * lia.
        * rewrite <- E2. unfold n0.
          replace (prec + size c - size d) with (size c + (prec - size d)) by lia.
          rewrite Z.pow_add_r by lia.
          assert (1 <= 2 ^ (prec - size d))
            by (pose proof (Z.pow_pos_nonneg 2 (prec - size d)); lia).
          nia.
        * exact Q2.
        * match goal with
          | |- context [round_nearest_even ?m ?l'] =>
              destruct (round_nearest_even_cases m l') as [->|[-> Hl]]
          end; [left; reflexivity|right; split; [reflexivity|]].
          apply (loc_of_shr_record_half (Q / 2) (Z.odd Q)) in Hl.
          pose proof (Z.div_mod Q 2 ltac:(lia)) as DQ.
          rewrite Zmod_odd, Hl in DQ.
          pose proof (Z.div_mod (d * 2 ^ n0) c ltac:(lia)) as D0.
          pose proof (Z.mod_pos_bound (d * 2 ^ n0) c Hcp) as B0.
          rewrite <- EQ in D0.
          pose proof (Z.div_mod (d * 2 ^ (n0 - 1)) c ltac:(lia)) as D1.
          rewrite <- Q2 in D1.
          assert (X : c * Q = 2 * (c * (Q / 2)) + c) by (rewrite DQ at 1; ring).
          assert (Y : d * 2 ^ n0 = 2 * (d * 2 ^ (n0 - 1))) by (rewrite E2; ring).
          lia.
      + match goal with
        | |- context [round_nearest_even ?m ?l'] =>
            destruct (round_nearest_even_cases m l') as [->|[-> _]]
        end; lia. }
  destruct (rounded Q e (new_location mc R)) as [m1 e1] eqn:Er.
  destruct (key m1 e1 eq_refl) as (n & -> & Hn & Hq & Hm).
  assert (E2 : 2 ^ n = 2 * 2 ^ (n - 1)).
  { rewrite <- Z.pow_succ_r by lia. f_equal. lia. }
  destruct (Z.eqb_spec m1 (2 ^ 53)) as [->|Hne].
  - unfold floor. replace (0 <=? - n + 1) with false by (symmetry; apply Z.leb_gt; lia).
    change (Zpos (Z.to_pos (2 ^ 52))) with (2 ^ 52).
    rewrite <- Hq. unfold of_Z. f_equal.
    replace (- (- n + 1)) with (n - 1) by lia. rewrite E2.
    change (2 ^ 53) with (2 ^ 52 * 2). rewrite (Z.mul_comm 2).
    symmetry. apply Z.div_mul_cancel_r; [|lia].
    apply Z.pow_nonzero; lia.
  - unfold floor. replace (0 <=? - n) with false by (symmetry; apply Z.leb_gt; lia).
    rewrite Z2Pos.id by lia. rewrite Z.opp_involutive, Hq. reflexivity.
Qed.

End NumFacts.

(** ** Strings *)

Module StrFacts.
Import Str.

Lemma eqb_nil s : eqb s [] = true -> s = [].
Proof. destruct s; [reflexivity|discriminate]. Qed.

Lemma drop_while_all p s : drop_while p s = [] -> forallb p s = true.
Proof.
  induction s as [|c r IH]; [reflexivity|]. simpl.
  destruct (p c); [exact IH|discriminate].
Qed.

Lemma drop_while_head p s c r : drop_while p s = c :: r -> p c = false.
Proof.
  induction s as [|x s IH]; [discriminate|]. simpl.
  destruct (p x) eqn:E; [exact IH|]. intros H. injection H as -> _. exact E.
Qed.

Lemma forallb_rev (p : code_unit -> bool) s :
  forallb p (rev s) = forallb p s.
Proof.
  induction s as [|c r IH]; [reflexivity|]. simpl.
  rewrite forallb_app, IH. simpl. rewrite andb_true_r. apply andb_comm.
Qed.

(** A string that trims to nothing is white space throughout. *)
Lemma trim_nil s : trim s = [] -> forallb is_white s = true.
Proof.
  unfold trim, trimEnd, trimStart. intros H.
  assert (Hr : drop_while is_white (rev (drop_while is_white s)) = []).
  { rewrite <- (rev_involutive (drop_while _ (rev _))), H. reflexivity. }
  apply drop_while_all in Hr. rewrite forallb_rev in Hr.
  destruct (drop_while is_white s) as [|c r] eqn:E.
  - apply drop_while_all, E.
  - apply drop_while_head in E. simpl in Hr. rewrite E in Hr. discriminate.
Qed.

Lemma white_not_slash c : is_white c = true -> cu_eqb c 47%N = false.
Proof.
  intros H. unfold cu_eqb. destruct (N.eqb_spec c 47) as [->|]; [|reflexivity].
  discriminate H.
Qed.

Lemma split_no_sep sep s :
  forallb (fun c => negb (cu_eqb c sep)) s = true -> split sep s = [s].
Proof.
  induction s as [|c r IH]; [reflexivity|]. simpl. intros H.
  apply andb_true_iff in H. destruct H as [Hc Hr].
  apply negb_true_iff in Hc. rewrite Hc, (IH Hr). reflexivity.
Qed.

Lemma white_split s :
  forallb is_white s = true -> split 47%N s = [s].
Proof.
  intros H. apply split_no_sep. rewrite forallb_forall in *.
  intros c Hc. rewrite (white_not_slash c (H c Hc)). reflexivity.
Qed.

Lemma white_trimStart s : forallb is_white s = true -> trimStart s = [].
Proof.
  unfold trimStart. induction s as [|c r IH]; [reflexivity|]. simpl.
  intros H. apply andb_true_iff in H. destruct H as [-> Hr]. exact (IH Hr).
Qed.

Lemma length_split_pos sep s : (0 < List.length (split sep s))%nat.
Proof.
  induction s as [|c r IH]; simpl; [lia|].
  destruct (cu_eqb c sep); simpl; [lia|].
  destruct (split sep r); simpl in *; lia.
Qed.

Lemma filter_digits_all s : forallb is_digit (filter is_digit s) = true.
Proof.
  induction s as [|c r IH]; [reflexivity|]. simpl.
  destruct (is_digit c) eqn:E; simpl; rewrite ?E; exact IH.
Qed.

Lemma digit_not_slash c : is_digit c = true -> cu_eqb 47%N c = false.
Proof.
  intros H. unfold cu_eqb. destruct (N.eqb_spec 47 c) as [<-|]; [|reflexivity].
  discriminate H.
Qed.


Lemma cu_eqb_eq a b : cu_eqb a b = true <-> a = b.
Proof. apply N.eqb_eq. Qed.

Lemma eqb_eq a : forall b, eqb a b = true <-> a = b.
Proof.
  induction a as [|x a IH]; intros [|y b]; cbn [eqb]; split; try congruence.
  - intros H. apply andb_true_iff in H. destruct H as [H1 H2].
    apply cu_eqb_eq in H1. apply IH in H2. congruence.
  - intros H. injection H as -> ->. apply andb_true_iff. split.
    + apply cu_eqb_eq. reflexivity.
    + apply IH. reflexivity.
Qed.

Lemma eqb_refl a : eqb a a = true.
Proof. apply eqb_eq. reflexivity. Qed.

Lemma digit_range c : is_digit c = true -> (48 <= c <= 57)%N.
Proof.
  unfold is_digit, in_range. intros H. apply andb_true_iff in H.
  destruct H as [H1 H2]. apply N.leb_le in H1. apply N.leb_le in H2. lia.
Qed.

Lemma cu_eqb_neq a b : a <> b -> cu_eqb a b = false.
Proof. intros H. apply N.eqb_neq. exact H. Qed.

Lemma digit_not c k : is_digit c = true -> (k < 48 \/ 57 < k)%N -> cu_eqb c k = false.
Proof.
  intros H Hk. apply digit_range in H. apply cu_eqb_neq. lia.
Qed.

Lemma digit_not_white c : is_digit c = true -> is_white c = false.
Proof.
  intros H. pose proof (digit_range c H) as R. unfold is_white, in_range.
  rewrite !(digit_not c) by (auto; lia).
  replace (N.leb c 13) with false by (symmetry; apply N.leb_gt; lia).
  replace (N.leb 8192 c) with false by (symmetry; apply N.leb_gt; lia).
  rewrite !andb_false_r. reflexivity.
Qed.

Lemma digit_val_digit c : is_digit c = true -> digit_val c = Some (Z.of_N c - 48).
Proof. unfold is_digit, digit_val. intros ->. reflexivity. Qed.

Lemma digit_radix c : is_digit c = true -> is_radix_digit 10 c = true.
Proof.
  intros H. unfold is_radix_digit. rewrite (digit_val_digit c H).
  apply digit_range in H. apply Z.ltb_lt. lia.
Qed.

Lemma take_while_all p s : forallb p s = true -> take_while p s = s.
Proof.
  induction s as [|c r IH]; [reflexivity|]. cbn [forallb take_while].
  intros H. apply andb_true_iff in H. destruct H as [-> H]. rewrite IH by exact H.
  reflexivity.
Qed.

Lemma take_while_app p s c r :
  forallb p s = true -> p c = false -> take_while p (s ++ c :: r) = s.
Proof.
  induction s as [|x s IH]; cbn [forallb take_while app].
  - intros _ ->. reflexivity.
  - intros H Hc. apply andb_true_iff in H. destruct H as [-> H].
    rewrite IH by assumption. reflexivity.
Qed.

Lemma drop_while_app p s c r :
  forallb p s = true -> p c = false -> drop_while p (s ++ c :: r) = c :: r.
Proof.
  induction s as [|x s IH]; cbn [forallb drop_while app].
  - intros _ ->. reflexivity.
  - intros H Hc. apply andb_true_iff in H. destruct H as [-> H].
    apply IH; assumption.
Qed.

Lemma drop_while_forall p s : forallb p s = true -> drop_while p s = [].
Proof.
  induction s as [|x s IH]; cbn [forallb drop_while]; [reflexivity|].
  intros H. apply andb_true_iff in H. destruct H as [-> H]. apply IH, H.
Qed.

Lemma split_app sep a b :
  forallb (fun c => negb (cu_eqb c sep)) a = true ->
  split sep (a ++ sep :: b) = a :: split sep b.
Proof.
  induction a as [|x a IH]; cbn [forallb app split].
  - intros _. rewrite (proj2 (cu_eqb_eq sep sep) eq_refl). reflexivity.
  - intros H. apply andb_true_iff in H. destruct H as [Hx H].
    apply negb_true_iff in Hx. rewrite Hx, IH by exact H. reflexivity.
Qed.

Lemma digits_no_slash s :
  forallb is_digit s = true -> forallb (fun c => negb (cu_eqb c 47%N)) s = true.
Proof.
  induction s as [|c r IH]; [reflexivity|]. cbn [forallb].
  intros H. apply andb_true_iff in H. destruct H as [Hc H].
  rewrite (digit_not c 47%N Hc) by lia. rewrite IH by exact H. reflexivity.
Qed.

Lemma digits_value_bound s :
  forallb is_digit s = true ->
  0 <= digits_value 10 s < 10 ^ Z.of_nat (List.length s).
Proof.
  unfold digits_value.
  assert (G : forall s acc n, forallb is_digit s = true -> 0 <= acc < 10 ^ n -> 0 <= n ->
                0 <= fold_left (digit_step 10) s acc < 10 ^ (n + Z.of_nat (List.length s))).
  { clear s. induction s as [|c r IH]; intros acc n H Ha Hn.
    - cbn [fold_left List.length]. rewrite Z.add_0_r. exact Ha.
    - cbn [forallb] in H. apply andb_true_iff in H. destruct H as [Hc H].
      cbn [fold_left List.length]. 
      replace (n + Z.of_nat (S (List.length r))) with ((n + 1) + Z.of_nat (List.length r)) by lia.
      apply IH; [exact H| |lia].
      unfold digit_step. rewrite (digit_val_digit c Hc).
      apply digit_range in Hc. rewrite Z.pow_add_r, Z.pow_1_r by lia. lia. }
  intros H. apply (G s 0 0 H); [cbn; lia|lia].
Qed.

End StrFacts.

(** ** Decimal texts *)

Module FixedFacts.
Import Str.

Lemma digits_value_fold s : digits_value 10 s = fold_left (digit_step 10) s 0.
Proof. reflexivity. Qed.

Lemma of_uint_acc d : forall acc,
  fold_left (digit_step 10) (of_uint d) (Zpos acc) = Zpos (Pos.of_uint_acc d acc).
Proof.
  induction d; intros acc; cbn [of_uint fold_left Pos.of_uint_acc];
    try reflexivity; unfold digit_step at 2;
    match goal with |- context [digit_val ?c] =>
      let v := eval vm_compute in (digit_val c) in
      change (digit_val c) with v end;
    cbv iota beta;
    match goal with |- fold_left (digit_step 10) _ ?z = _ =>
      match goal with |- _ = Zpos (Pos.of_uint_acc _ ?q) =>
        replace z with (Zpos q) by lia end end;
    apply IHd.
Qed.

Lemma of_uint_value d : fold_left (digit_step 10) (of_uint d) 0 = Z.of_N (Pos.of_uint d).
Proof.
  induction d; cbn [of_uint fold_left Pos.of_uint]; try reflexivity;
    unfold digit_step at 2;
    match goal with |- context [digit_val ?c] =>
      let v := eval vm_compute in (digit_val c) in
      change (digit_val c) with v end;
    cbv iota beta; cbn [Z.mul Z.add Z.of_N]; try exact IHd;
    apply (of_uint_acc d 1) || apply of_uint_acc.
Qed.

Lemma of_N_value n : digits_value 10 (of_N n) = Z.of_N n.
Proof.
  unfold of_N. rewrite digits_value_fold, of_uint_value.
  f_equal. apply (DecimalN.Unsigned.of_to n).
Qed.

Lemma of_uint_digits d : forallb is_digit (of_uint d) = true.
Proof. induction d; cbn [of_uint forallb]; try reflexivity; exact IHd. Qed.




End FixedFacts.

(** ** Dates *)

Module DateFacts.
Import JSDate.

Lemma DaysInYear_cases y : DaysInYear y = 365 \/ DaysInYear y = 366.
Proof. unfold DaysInYear. repeat (destruct (_ =? _); cbn [negb]); auto. Qed.

Lemma DayFromYear_succ y : DayFromYear (y + 1) = DayFromYear y + DaysInYear y.
Proof.
  unfold DayFromYear, DaysInYear.
  destruct (y mod 4 =? 0) eqn:E4; destruct (y mod 100 =? 0) eqn:E100;
    destruct (y mod 400 =? 0) eqn:E400; cbn [negb];
    rewrite ?Z.eqb_eq, ?Z.eqb_neq in *; Z.div_mod_to_equations; lia.
Qed.

Lemma DayFromYear_mono y y' : y <= y' -> DayFromYear y <= DayFromYear y'.
Proof. unfold DayFromYear. intros H. Z.div_mod_to_equations. lia. Qed.

(** [YearFromDay d] is the year ECMAScript asks for: the largest one that
    starts on or before day [d]. *)
Lemma YearFromDay_spec d :
  DayFromYear (YearFromDay d) <= d < DayFromYear (YearFromDay d + 1).
Proof.
  unfold YearFromDay.
  set (y0 := 2000 + 400 * ((d - 10957) / 146097) + (d - 10957) mod 146097 / 366).
  assert (H0 : DayFromYear y0 <= d < DayFromYear (y0 + 3)).
  { unfold DayFromYear, y0. Z.div_mod_to_equations. lia. }
  replace (y0 + 3) with (y0 + 2 + 1) in H0 by lia.
  destruct (DayFromYear (y0 + 2) <=? d) eqn:E2.
  - apply Z.leb_le in E2. lia.
  - apply Z.leb_gt in E2. replace (y0 + 2) with (y0 + 1 + 1) in E2 by lia.
    destruct (DayFromYear (y0 + 1) <=? d) eqn:E1.
    + apply Z.leb_le in E1. lia.
    + apply Z.leb_gt in E1. lia.
Qed.

Lemma YearFromDay_unique y d :
  DayFromYear y <= d < DayFromYear (y + 1) -> YearFromDay d = y.
Proof.
  intros H. pose proof (YearFromDay_spec d) as S.
  destruct (Z.lt_trichotomy (YearFromDay d) y) as [L|[E|G]]; [|exact E|].
  - pose proof (DayFromYear_mono (YearFromDay d + 1) y). lia.
  - pose proof (DayFromYear_mono (y + 1) (YearFromDay d)). lia.
Qed.

Lemma Day_midnight d : Day (d * msPerDay) = d.
Proof. unfold Day, msPerDay. apply Z.div_mul. lia. Qed.

Lemma leap_cases y : leap y = 0 \/ leap y = 1.
Proof. unfold leap. destruct (DaysInYear_cases y); lia. Qed.

Lemma month_bounds lp mn :
  0 <= mn <= 11 -> 0 <= lp <= 1 ->
  0 <= month_start lp mn /\
  month_start lp mn + month_length lp mn <= 365 + lp /\
  28 <= month_length lp mn <= 31.
Proof.
  intros Hmn Hlp.
  assert (mn = 0 \/ mn = 1 \/ mn = 2 \/ mn = 3 \/ mn = 4 \/ mn = 5 \/ mn = 6
          \/ mn = 7 \/ mn = 8 \/ mn = 9 \/ mn = 10 \/ mn = 11) as Hc by lia.
  repeat (destruct Hc as [->|Hc]; [cbn [month_start month_length]; lia|]).
  subst mn. cbn [month_start month_length]. lia.
Qed.

(** The date fields of a local midnight are the ones it was made from. *)
Lemma civil_fields y mn dt :
  0 <= mn <= 11 ->
  1 <= dt <= month_length (leap y) mn ->
  let t := (DayFromYear y + month_start (leap y) mn + dt - 1) * msPerDay in
  YearFromTime t = y /\ MonthFromTime t = mn /\ DateFromTime t = dt.
Proof.
  intros Hmn Hdt t.
  assert (Hl : leap y = 0 \/ leap y = 1).
  { unfold leap. destruct (DaysInYear_cases y); lia. }
  assert (Hy : YearFromTime t = y).
  { unfold YearFromTime, t. rewrite Day_midnight. apply YearFromDay_unique.
    rewrite DayFromYear_succ. unfold leap in *.
    assert (mn = 0 \/ mn = 1 \/ mn = 2 \/ mn = 3 \/ mn = 4 \/ mn = 5 \/ mn = 6
            \/ mn = 7 \/ mn = 8 \/ mn = 9 \/ mn = 10 \/ mn = 11) as Hc by lia.
    repeat (destruct Hc as [->|Hc]; [cbn [month_start month_length] in *; lia|]).
    subst mn. cbn [month_start month_length] in *. lia. }
  assert (Hd : DayWithinYear t = month_start (leap y) mn + dt - 1).
  { unfold DayWithinYear. rewrite Hy. unfold t. rewrite Day_midnight. lia. }
  split; [exact Hy|].
  assert (Hm : MonthFromTime t = mn).
  { unfold MonthFromTime. rewrite Hy, Hd.
    assert (mn = 0 \/ mn = 1 \/ mn = 2 \/ mn = 3 \/ mn = 4 \/ mn = 5 \/ mn = 6
            \/ mn = 7 \/ mn = 8 \/ mn = 9 \/ mn = 10 \/ mn = 11) as Hc by lia.
    repeat (destruct Hc as [->|Hc];
            [cbn [month_start month_length] in *;
             repeat match goal with
                    | |- context [?a <? ?b] => destruct (Z.ltb_spec a b); try lia
                    end; reflexivity|]).
    subst mn. cbn [month_start month_length] in *.
    repeat match goal with
           | |- context [?a <? ?b] => destruct (Z.ltb_spec a b); try lia
           end; reflexivity. }
  split; [exact Hm|]. unfold DateFromTime. rewrite Hy, Hm, Hd. lia.
Qed.


(** The date fields of any time value are a month of the year and a day of
    that month, and they give back its day number. *)
Lemma fields_range t :
  0 <= MonthFromTime t <= 11 /\
  1 <= DateFromTime t <= month_length (leap (YearFromTime t)) (MonthFromTime t) /\
  Day t = DayFromYear (YearFromTime t)
          + month_start (leap (YearFromTime t)) (MonthFromTime t)
          + DateFromTime t - 1.
Proof.
  unfold DateFromTime, MonthFromTime, DayWithinYear, YearFromTime.
  pose proof (YearFromDay_spec (Day t)) as Hy.
  rewrite DayFromYear_succ in Hy.
  set (y := YearFromDay (Day t)) in *.
  pose proof (leap_cases y) as Hl.
  assert (Hd : DaysInYear y = 365 + leap y) by (unfold leap; lia).
  set (lp := leap y) in *. set (d := Day t - DayFromYear y).
  assert (Hr : 0 <= d < 365 + lp) by (unfold d; lia).
  repeat match goal with
         | |- context [?a <? ?b] => destruct (Z.ltb_spec a b)
         end;
    cbn [month_start month_length]; lia.
Qed.



End DateFacts.

(** ** Integers and their texts *)

Module ParseFacts.
Import Num NumFacts Str StrFacts.

(** [parseInt] on a run of decimal digits. *)
Lemma parseInt_digits s :
  s <> [] -> forallb is_digit s = true -> parseInt s = of_Z (digits_value 10 s).
Proof.
  intros Hne Hd. destruct s as [|c r]; [congruence|].
  pose proof Hd as Hd'. cbn [forallb] in Hd'. apply andb_true_iff in Hd'.
  destruct Hd' as [Hc Hr].
  unfold parseInt, trimStart. cbn [drop_while]. rewrite (digit_not_white c Hc).
  rewrite !(digit_not c) by (auto; lia). cbn [orb].
  assert (T : take_while (is_radix_digit 10) (c :: r) = c :: r).
  { apply take_while_all. clear -Hd.
    induction (c :: r) as [|x l IH]; [reflexivity|].
    cbn [forallb] in *. apply andb_true_iff in Hd. destruct Hd as [Hx Hl].
    rewrite (digit_radix x Hx), IH by exact Hl. reflexivity. }
  assert (V : of_decimal false (digits_value 10 (c :: r)) 0
              = of_Z (digits_value 10 (c :: r))).
  { apply of_decimal_int. apply (digits_value_bound (c :: r) Hd). }
  destruct r as [|c1 r0].
  - rewrite T. exact V.
  - cbn [forallb] in Hr. apply andb_true_iff in Hr. destruct Hr as [Hc1 _].
    rewrite !(digit_not c1) by (auto; lia). rewrite andb_false_r.
    rewrite T. exact V.
Qed.

End ParseFacts.

Module TextFacts.
Import Num NumFacts Str StrFacts.

Lemma upto_forall (f : Z -> bool) n :
  forallb f (upto n) = true -> forall v, 0 <= v < n -> f v = true.
Proof.
  intros H v Hv. rewrite forallb_forall in H. apply H.
  unfold upto. apply in_map_iff. exists (Z.to_nat v). split; [lia|].
  apply in_seq. lia.
Qed.

(** [Number::toString] on the integers from 0 to 9999: the decimal digits,
    at most four of them. *)
Lemma toString_small v :
  0 <= v <= 9999 ->
  toString (of_Z v) = Str.of_N (Z.to_N v) /\
  (List.length (Str.of_N (Z.to_N v)) <= 4)%nat /\
  (1000 <= v -> List.length (Str.of_N (Z.to_N v)) = 4%nat).
Proof.
  intros Hv.
  assert (H : forallb (fun v => (Str.eqb (toString (of_Z v)) (Str.of_N (Z.to_N v))
                                 && (List.length (Str.of_N (Z.to_N v)) <=? 4)%nat
                                 && ((v <? 1000)
                                     || (List.length (Str.of_N (Z.to_N v)) =? 4)%nat))%bool)
                      (upto 10000) = true) by (vm_cast_no_check (eq_refl true)).
  pose proof (upto_forall _ _ H v ltac:(lia)) as Hc. cbv beta in Hc.
  apply andb_true_iff in Hc. destruct Hc as [Hc H3].
  apply andb_true_iff in Hc. destruct Hc as [H1 H2].
  apply eqb_eq in H1. apply Nat.leb_le in H2.
  split; [exact H1|]. split; [exact H2|].
  intros Hk. apply orb_true_iff in H3. destruct H3 as [H3|H3].
  - apply Z.ltb_lt in H3. lia.
  - apply Nat.eqb_eq in H3. exact H3.
Qed.

(** [padStart(2, '0')] on the integers from 0 to 99: two digits with the
    same value. *)
Lemma pad2_spec v :
  0 <= v <= 99 ->
  List.length (pad2 v) = 2%nat /\ forallb is_digit (pad2 v) = true /\
  digits_value 10 (pad2 v) = v.
Proof.
  intros Hv.
  assert (H : forallb (fun v => ((List.length (pad2 v) =? 2)%nat
                                 && forallb is_digit (pad2 v)
                                 && (digits_value 10 (pad2 v) =? v))%bool)
                      (upto 100) = true) by (vm_cast_no_check (eq_refl true)).
  pose proof (upto_forall _ _ H v ltac:(lia)) as Hc. cbv beta in Hc.
  apply andb_true_iff in Hc. destruct Hc as [Hc H3].
  apply andb_true_iff in Hc. destruct Hc as [H1 H2].
  apply Nat.eqb_eq in H1. apply Z.eqb_eq in H3. auto.
Qed.

Lemma of_N_nonempty n : Str.of_N n <> [].
Proof.
  destruct n as [|p]; [discriminate|].
  intros E. pose proof (FixedFacts.of_N_value (Npos p)) as H.
  rewrite E in H. discriminate H.
Qed.

End TextFacts.

(** ** The host model on documented results *)

Module HostExamples.
Import Num.

Example parseInt_leading_zero : parseInt (js "08") = of_Z 8.
Proof. vm_compute. reflexivity. Qed.

Example parseInt_stops_at_letter : parseInt (js "12px") = of_Z 12.
Proof. vm_compute. reflexivity. Qed.

Example parseInt_hex_prefix : parseInt (js " 0x1F") = of_Z 31.
Proof. vm_compute. reflexivity. Qed.

Example parseInt_empty : parseInt (js "") = NaN.
Proof. vm_compute. reflexivity. Qed.

Example parseFloat_prefix : parseFloat (js "3.14abc") = of_decimal false 314 (-2).
Proof. vm_compute. reflexivity. Qed.

Example parseFloat_trims : parseFloat (js "  42  ") = of_Z 42.
Proof. vm_compute. reflexivity. Qed.

Example parseFloat_letters : parseFloat (js "abc") = NaN.
Proof. vm_compute. reflexivity. Qed.

Example toFixed_12345_1 : toFixed 1 (parseFloat (js "12345.6789")) = js "12345.7".
Proof. vm_compute. reflexivity. Qed.

Example toFixed_12345_6 : toFixed 6 (parseFloat (js "12345.6789")) = js "12345.678900".
Proof. vm_compute. reflexivity. Qed.

Example toFixed_large : toFixed 2 (parseFloat (js "1.23e20")) = js "123000000000000000000.00".
Proof. vm_compute. reflexivity. Qed.

Example toFixed_small : toFixed 2 (parseFloat (js "1.23e-10")) = js "0.00".
Proof. vm_compute. reflexivity. Qed.

Example toFixed_rounds_up : toFixed 1 (parseFloat (js "2.35")) = js "2.4".
Proof. vm_compute. reflexivity. Qed.

Example toFixed_rounds_down : toFixed 1 (parseFloat (js "2.55")) = js "2.5".
Proof. vm_compute. reflexivity. Qed.

Example toFixed_exponent :
  toFixed 50 (mul (parseFloat (js "6.02")) (parseFloat (js "1e23")))
  = js "6.019999999999999e+23".
Proof. vm_compute. reflexivity. Qed.

Example split_keeps_empty_parts :
  Str.split 47%N (js "a//b") = [js "a"; js ""; js "b"].
Proof. vm_compute. reflexivity. Qed.

Example trim_both_ends : Str.trim (js "  1 000  ") = js "1 000".
Proof. vm_compute. reflexivity. Qed.

Example toString_integer : toString (of_Z 2024) = js "2024".
Proof. vm_compute. reflexivity. Qed.

Example toString_negative : toString (of_Z (-271821)) = js "-271821".
Proof. vm_compute. reflexivity. Qed.

Example toString_fraction : toString (parseFloat (js "0.000001")) = js "0.000001".
Proof. vm_compute. reflexivity. Qed.

Example toString_small_exponent : toString (parseFloat (js "0.0000001")) = js "1e-7".
Proof. vm_compute. reflexivity. Qed.

Example toString_large_exponent :
  toString (parseFloat (js "1000000000000000000000")) = js "1e+21".
Proof. vm_compute. reflexivity. Qed.

Example toString_rounded_integer :
  toString (parseFloat (js "123456789012345678901")) = js "123456789012345680000".
Proof. vm_compute. reflexivity. Qed.

Example toString_sum :
  toString (add (parseFloat (js "0.1")) (parseFloat (js "0.2")))
  = js "0.30000000000000004".
Proof. vm_compute. reflexivity. Qed.

Example toString_agrees_with_toFixed :
  toString (mul (parseFloat (js "6.02")) (parseFloat (js "1e23")))
  = toString_large (mul (parseFloat (js "6.02")) (parseFloat (js "1e23"))).
Proof. vm_compute. reflexivity. Qed.

Example padStart_repeats : Str.padStart 10 (js "foo") (js "abc") = js "foofoofabc".
Proof. vm_compute. reflexivity. Qed.

Example padStart_cuts : Str.padStart 6 (js "123465") (js "abc") = js "123abc".
Proof. vm_compute. reflexivity. Qed.

Example padStart_long_enough : Str.padStart 1 (js "0") (js "abc") = js "abc".
Proof. vm_compute. reflexivity. Qed.

End HostExamples.

(** * Properties of the screen *)


Section ScreenFacts.

Variable LocalTZA : Z.

Import Num NumFacts.

Lemma maxTime_small t : Z.abs t <= JSDate.maxTime -> Z.abs t < 2 ^ prec.
Proof. unfold JSDate.maxTime, prec. lia. Qed.

(** With a constant offset [MakeDay] is the host's. *)
Lemma fixed_MakeDay yr m d :
  JSDate.HostMakeDay LocalTZA yr m d = JSDate.MakeDay yr m d.
Proof.
  unfold JSDate.HostMakeDay, JSDate.MakeDay.
  destruct yr, (trunc m), (trunc d); reflexivity.
Qed.

(** A time value is a local midnight shifted to UTC, or NaN. *)
Lemma make_value y m d :
  JSDate.DateValue (JSDate.make LocalTZA y m d) = None \/
  exists day,
    JSDate.MakeDay (JSDate.MakeFullYear y) m d = Some day /\
    JSDate.DateValue (JSDate.make LocalTZA y m d)
    = Some (day * JSDate.msPerDay - LocalTZA) /\
    Z.abs (day * JSDate.msPerDay - LocalTZA) <= JSDate.maxTime.
Proof.
  unfold JSDate.make, JSDate.MakeDate, JSDate.TimeClip, JSDate.UTC.
  rewrite fixed_MakeDay. cbn [JSDate.offset JSDate.fixed].
  destruct (JSDate.MakeDay _ m d) as [day|]; [|left; reflexivity].
  cbn [option_map JSDate.DateValue]. rewrite Z.add_0_r.
  destruct (Z.ltb_spec JSDate.maxTime (Z.abs (day * JSDate.msPerDay - LocalTZA)));
    [left; reflexivity|right]. exists day. auto.
Qed.

Lemma getTime_nan d t :
  JSDate.DateValue d = Some t -> Z.abs t <= JSDate.maxTime ->
  isNaN (JSDate.getTime d) = false.
Proof.
  intros E Hb. unfold JSDate.getTime. rewrite E.
  apply of_Z_not_nan, representable_small, maxTime_small, Hb.
Qed.

(** [parseDateString], case by case. *)
Lemma parse_eq s :
  parseDateString LocalTZA s =
  match Str.split 47%N s with
  | [p0; p1; p2] =>
      match JSDate.DateValue (date_of_parts LocalTZA p0 p1 p2) with
      | Some _ => Some (date_of_parts LocalTZA p0 p1 p2)
      | None => None
      end
  | _ => None
  end.
Proof.
  unfold parseDateString.
  destruct (Str.split 47%N s) as [|p0 [|p1 [|p2 [|p3 r]]]]; try reflexivity.
  cbn [List.length Nat.eqb negb nth]. fold (date_of_parts LocalTZA p0 p1 p2).
  unfold date_of_parts at 1 2.
  destruct (make_value (parseInt p2) (sub (parseInt p1) (of_Z 1)) (parseInt p0))
    as [E|(day & _ & E & Hb)]; unfold date_of_parts; rewrite E.
  - unfold JSDate.getTime. rewrite E. reflexivity.
  - rewrite (getTime_nan _ _ E Hb). reflexivity.
Qed.

Lemma parse_some s d :
  parseDateString LocalTZA s = Some d ->
  exists p0 p1 p2 day,
    Str.split 47%N s = [p0; p1; p2] /\
    d = date_of_parts LocalTZA p0 p1 p2 /\
    JSDate.DateValue d = Some (day * JSDate.msPerDay - LocalTZA) /\
    Z.abs (day * JSDate.msPerDay - LocalTZA) <= JSDate.maxTime.
Proof.
  rewrite parse_eq.
  destruct (Str.split 47%N s) as [|p0 [|p1 [|p2 [|p3 r]]]]; try discriminate.
  destruct (make_value (parseInt p2) (sub (parseInt p1) (of_Z 1)) (parseInt p0))
    as [E|(day & _ & E & Hb)]; unfold date_of_parts; rewrite E; [discriminate|].
  intros H. injection H as <-. exists p0, p1, p2, day. auto.
Qed.

(** The day count of two time values that are whole days apart. *)
Lemma dayDiff_exact a b da db :
  JSDate.DateValue a = Some (da * JSDate.msPerDay - LocalTZA) ->
  Z.abs (da * JSDate.msPerDay - LocalTZA) <= JSDate.maxTime ->
  JSDate.DateValue b = Some (db * JSDate.msPerDay - LocalTZA) ->
  Z.abs (db * JSDate.msPerDay - LocalTZA) <= JSDate.maxTime ->
  JSDate.gtb a b = false ->
  0 <= db - da /\
  floor (div (sub (JSDate.getTime b) (JSDate.getTime a))
             (mul (mul (mul (of_Z 1000) (of_Z 60)) (of_Z 60)) (of_Z 24)))
  = of_Z (db - da).
Proof.
  intros Ea Ha Eb Hb Hgt.
  pose proof (maxTime_small _ Ha) as Ha'. pose proof (maxTime_small _ Hb) as Hb'.
  unfold JSDate.gtb, gtb, JSDate.getTime in *. rewrite Ea, Eb in *.
  rewrite ltb_of_Z in Hgt by (apply representable_small; assumption).
  apply Z.ltb_ge in Hgt.
  assert (Hk : 0 <= db - da) by (unfold JSDate.msPerDay in *; lia).
  split; [exact Hk|].
  assert (Hd : db * JSDate.msPerDay - LocalTZA - (da * JSDate.msPerDay - LocalTZA)
               = (db - da) * JSDate.msPerDay) by ring.
  assert (Hr : representable ((db - da) * JSDate.msPerDay)).
  { apply representable_even.
    - unfold JSDate.msPerDay, JSDate.maxTime in *. lia.
    - rewrite Z.even_mul. unfold JSDate.msPerDay. simpl Z.even at 2.
      apply orb_true_r. }
  assert (Hks : db - da < 2 ^ prec)
    by (unfold JSDate.msPerDay, JSDate.maxTime, prec in *; lia).
  rewrite msPerDay_num, sub_of_Z, Hd by (rewrite ?Hd; assumption).
  destruct (Z.eq_dec (db - da) 0) as [E0|N0].
  - rewrite E0, Z.mul_0_l, div_zero_of_Z by (unfold JSDate.msPerDay, prec; lia).
    reflexivity.
  - rewrite div_of_Z by (auto; unfold JSDate.msPerDay, prec; lia).
    apply floor_of_Z, representable_small. lia.
Qed.

(** [calculateInterest] from the initial state, branch by branch. *)
Lemma calculate_eq p s e :
  calculate LocalTZA p s e =
  if blank p then mkState p s e msg_principal_required true false None
  else if blank s then mkState p s e msg_start_required false true None
  else if invalid_principal (parseFloat p)
       then mkState p s e msg_invalid_principal false false None
  else match parseDateString LocalTZA s, parseDateString LocalTZA e with
       | Some a, Some b =>
           if JSDate.gtb a b
           then mkState p s e msg_date_order false false None
           else
             let dd :=
               floor (div (sub (JSDate.getTime b) (JSDate.getTime a))
                          (mul (mul (mul (of_Z 1000) (of_Z 60)) (of_Z 60))
                               (of_Z 24))) in
             mkState p s e (js "") false false
                     (Some (mkResults dd (map (entry_for (parseFloat p) dd) interestRates) s e))
       | _, _ => mkState p s e msg_invalid_dates false false None
       end.
Proof.
  unfold calculate, calculateInterest, inputs, invalid_principal.
  cbn [principal startDate endDate setError setPrincipalError setStartDateError
       setResults error principalError startDateError results].
  destruct (blank p); [reflexivity|].
  destruct (blank s); [reflexivity|].
  destruct (_ || _ || _)%bool; [reflexivity|].
  destruct (parseDateString LocalTZA s) as [a|];
    destruct (parseDateString LocalTZA e) as [b|]; reflexivity.
Qed.

End ScreenFacts.


Section Calculator.

Variable LocalTZA : Z.

Import Num NumFacts.

Lemma blank_white s : blank s = true -> forallb Str.is_white s = true.
Proof.
  unfold blank. destruct s as [|c r]; [reflexivity|]. cbn [orb].
  intros H. apply StrFacts.trim_nil, StrFacts.eqb_nil, H.
Qed.

Lemma blank_parseFloat s : blank s = true -> parseFloat s = NaN.
Proof.
  intros H. unfold parseFloat.
  rewrite (StrFacts.white_trimStart s (blank_white s H)). reflexivity.
Qed.

Lemma blank_parse s : blank s = true -> parseDateString LocalTZA s = None.
Proof.
  intros H. rewrite parse_eq, (StrFacts.white_split s (blank_white s H)).
  reflexivity.
Qed.

Lemma exact_sign s m e :
  exists num k, exact (S754_finite s m e) = Some (num, k) /\ 0 <= k /\
                (if s then num < 0 else 0 < num).
Proof.
  unfold exact. destruct (Z.leb_spec 0 e).
  - exists ((if s then Zneg m else Zpos m) * 2 ^ e), 0. repeat split; try lia.
    assert (0 < 2 ^ e) by (apply Z.pow_pos_nonneg; lia). destruct s; nia.
  - exists (if s then Zneg m else Zpos m), (- e). repeat split; try lia.
    destruct s; lia.
Qed.

(** A finite nonzero Number compares with zero by its sign. *)
Lemma cmp_finite_zero s m e z :
  cmp (S754_finite s m e) (S754_zero z) = Some (if s then Lt else Gt).
Proof.
  destruct (exact_sign s m e) as (num & k & E & Hk & Hs).
  unfold cmp. rewrite E. cbn [exact]. rewrite Z.pow_0_r, Z.mul_1_r, Z.mul_0_l.
  f_equal. destruct s; [apply Z.compare_lt_iff|apply Z.compare_gt_iff]; lia.
Qed.

Lemma cmp_zero_finite s m e z :
  cmp (S754_zero z) (S754_finite s m e) = Some (if s then Gt else Lt).
Proof.
  destruct (exact_sign s m e) as (num & k & E & Hk & Hs).
  unfold cmp. rewrite E. cbn [exact]. rewrite Z.pow_0_r, Z.mul_1_r, Z.mul_0_l.
  f_equal. destruct s; [apply Z.compare_gt_iff|apply Z.compare_lt_iff]; lia.
Qed.

(** The principal check passes exactly on the Numbers above zero,
    [Infinity] included. *)
Lemma invalid_principal_spec x :
  invalid_principal x = negb (gtb x (of_Z 0)).
Proof.
  unfold invalid_principal, gtb, ltb, leb. change (of_Z 0) with (S754_zero false).
  destruct x as [sx|sx| |sx m e].
  - reflexivity.
  - destruct sx; reflexivity.
  - reflexivity.
  - rewrite cmp_finite_zero, cmp_zero_finite. destruct sx; reflexivity.
Qed.


(** A date text with a month from 1 to 12 and a day of that month parses to
    the date it spells, the year read through [MakeFullYear]. *)
Lemma parse_valid s p0 p1 p2 yr mo dd :
  Z.abs LocalTZA <= JSDate.msPerDay ->
  Str.split 47%N s = [p0; p1; p2] ->
  parseInt p0 = of_Z dd -> parseInt p1 = of_Z mo -> parseInt p2 = of_Z yr ->
  - 270000 <= yr <= 270000 ->
  1 <= mo <= 12 ->
  let y := if ((0 <=? yr) && (yr <=? 99))%bool then 1900 + yr else yr in
  1 <= dd <= JSDate.month_length (JSDate.leap y) (mo - 1) ->
  exists d,
    parseDateString LocalTZA s = Some d /\
    JSDate.DateValue d
    = Some ((JSDate.DayFromYear y + JSDate.month_start (JSDate.leap y) (mo - 1)
             + dd - 1) * JSDate.msPerDay - LocalTZA) /\
    JSDate.getFullYear LocalTZA d = of_Z y /\
    JSDate.getMonth LocalTZA d = of_Z (mo - 1) /\
    JSDate.getDate LocalTZA d = of_Z dd.
Proof.
  intros Htz Hs H0 H1 H2 Hyr Hmo y Hdd.
  assert (Hy : - 270000 <= y <= 270000).
  { unfold y. destruct (Z.leb_spec 0 yr); destruct (Z.leb_spec yr 99);
      cbn [andb]; lia. }
  pose proof (DateFacts.leap_cases y) as Hl.
  destruct (DateFacts.month_bounds (JSDate.leap y) (mo - 1)) as (Hms & Hme & Hml);
    [lia|lia|].
  rewrite parse_eq, Hs. unfold date_of_parts. rewrite H0, H1, H2.
  rewrite sub_of_Z by (try apply representable_small; unfold prec; lia).
  set (day := JSDate.DayFromYear y + JSDate.month_start (JSDate.leap y) (mo - 1) + dd - 1).
  assert (Hmk : JSDate.MakeDay (JSDate.MakeFullYear (of_Z yr)) (of_Z (mo - 1)) (of_Z dd)
                = Some day).
  { unfold JSDate.MakeDay, JSDate.MakeFullYear.
    rewrite !trunc_of_Z by (apply representable_small; unfold prec; lia).
    fold y. rewrite Z.div_small, Z.mod_small, Z.add_0_r by lia. reflexivity. }
  assert (Hday : JSDate.DayFromYear y <= day <= JSDate.DayFromYear y + 366).
  { unfold day. lia. }
  assert (Hrange : Z.abs (day * JSDate.msPerDay - LocalTZA) <= JSDate.maxTime).
  { assert (- 99400000 <= JSDate.DayFromYear y <= 98000000).
    { unfold JSDate.DayFromYear. Z.div_mod_to_equations. lia. }
    unfold JSDate.msPerDay, JSDate.maxTime in *. lia. }
  destruct (make_value LocalTZA (of_Z yr) (of_Z (mo - 1)) (of_Z dd))
    as [E|(day' & Hmk' & E & _)].
  - exfalso. revert E. unfold JSDate.make. rewrite fixed_MakeDay, Hmk.
    unfold JSDate.MakeDate, JSDate.TimeClip, JSDate.UTC.
    cbn [JSDate.offset JSDate.fixed].
    cbn [option_map JSDate.DateValue]. rewrite Z.add_0_r.
    destruct (Z.ltb_spec JSDate.maxTime (Z.abs (day * JSDate.msPerDay - LocalTZA)));
      [lia|discriminate].
  - rewrite Hmk in Hmk'. injection Hmk' as <-. rewrite E.
    eexists. split; [reflexivity|]. split; [exact E|].
    unfold JSDate.getFullYear, JSDate.getMonth, JSDate.getDate, JSDate.local_field.
    rewrite E. unfold JSDate.LocalTime; cbn [JSDate.offset JSDate.fixed].
    replace (day * JSDate.msPerDay - LocalTZA + LocalTZA)
      with (day * JSDate.msPerDay) by ring.
    destruct (DateFacts.civil_fields y (mo - 1) dd) as (Fy & Fm & Fd); [lia|lia|].
    fold day in Fy, Fm, Fd. rewrite Fy, Fm, Fd. auto.
Qed.


(** What a successful calculation computed. *)
Lemma success_inv p s e r :
  results (calculate LocalTZA p s e) = Some r ->
  exists ds de da db,
    parseDateString LocalTZA s = Some ds /\
    parseDateString LocalTZA e = Some de /\
    JSDate.DateValue ds = Some (da * JSDate.msPerDay - LocalTZA) /\
    JSDate.DateValue de = Some (db * JSDate.msPerDay - LocalTZA) /\
    0 <= db - da /\ db - da < 2 ^ prec /\
    gtb (parseFloat p) (of_Z 0) = true /\
    r = mkResults (of_Z (db - da))
                  (map (entry_for (parseFloat p) (of_Z (db - da))) interestRates)
                  s e.
Proof.
  rewrite calculate_eq.
  destruct (blank p); [discriminate|]. destruct (blank s); [discriminate|].
  rewrite invalid_principal_spec.
  destruct (gtb (parseFloat p) (of_Z 0)); [|discriminate]. cbn [negb].
  destruct (parseDateString LocalTZA s) as [ds|] eqn:Es; [|discriminate].
  destruct (parseDateString LocalTZA e) as [de|] eqn:Ee; [|discriminate].
  destruct (parse_some _ _ _ Es) as (_ & _ & _ & da & _ & _ & Ea & Ha).
  destruct (parse_some _ _ _ Ee) as (_ & _ & _ & db & _ & _ & Eb & Hb).
  destruct (JSDate.gtb ds de) eqn:G; [discriminate|].
  destruct (dayDiff_exact LocalTZA ds de da db Ea Ha Eb Hb G) as [Hk Hd].
  cbv zeta. rewrite Hd. cbn [results]. intros H. injection H as <-.
  exists ds, de, da, db. repeat split; auto.
  unfold JSDate.msPerDay, JSDate.maxTime, prec in *. lia.
Qed.

(** C1.  A principal that parses to a finite number above zero and two date
    texts that parse to dates with the start not after the end give a
    result and no error; the day difference is not negative and there is one
    entry per rate, in the order 3, 4, 7, 12. *)
Theorem calculate_succeeds p s e ds de :
  is_finite (parseFloat p) = true ->
  gtb (parseFloat p) (of_Z 0) = true ->
  parseDateString LocalTZA s = Some ds ->
  parseDateString LocalTZA e = Some de ->
  JSDate.gtb ds de = false ->
  error (calculate LocalTZA p s e) = js "" /\
  exists r,
    results (calculate LocalTZA p s e) = Some r /\
    leb (of_Z 0) (dayDiff r) = true /\
    List.length (data r) = 4%nat /\
    map rate (data r) = map of_Z [3; 4; 7; 12].
Proof.
  intros Hfin Hpos Es Ee Hord.
  assert (Hres : exists r, calculate LocalTZA p s e
                           = mkState p s e (js "") false false (Some r)).
  { rewrite calculate_eq.
    destruct (blank p) eqn:Bp.
    { rewrite (blank_parseFloat p Bp) in Hpos. discriminate. }
    destruct (blank s) eqn:Bs.
    { rewrite (blank_parse s Bs) in Es. discriminate. }
    rewrite invalid_principal_spec, Hpos, Es, Ee, Hord. cbn [negb].
    eexists. reflexivity. }
  destruct Hres as [r Hr]. rewrite Hr. split; [reflexivity|].
  exists r. split; [reflexivity|].
  assert (Hs : results (calculate LocalTZA p s e) = Some r) by (rewrite Hr; reflexivity).
  destruct (success_inv _ _ _ _ Hs) as (_ & _ & da & db & _ & _ & _ & _ & Hk & Hb & _ & ->).
  cbn [dayDiff data]. repeat split.
  apply leb_zero_of_Z; [exact Hk|apply representable_small; lia].
Qed.











(** C4.  The error is the one of the first failing check in the order
    empty principal, empty start date, invalid principal, unparseable dates,
    start after end; there is a result exactly when no check fails; with
    principal and start date both empty the error is the missing-principal
    one. *)
Theorem validation_order p s e :
  error (calculate LocalTZA p s e)
  = match first_failing (checks LocalTZA p s e) with
    | Some err => message err
    | None => js ""
    end /\
  (results (calculate LocalTZA p s e) = None <->
   first_failing (checks LocalTZA p s e) <> None) /\
  (blank p = true -> blank s = true ->
   error (calculate LocalTZA p s e) = message MissingPrincipal /\
   results (calculate LocalTZA p s e) = None).
Proof.
  rewrite calculate_eq.
  unfold checks, first_failing, unparseable_dates, start_after_end.
  destruct (blank p).
  { repeat split; try discriminate; auto. }
  destruct (blank s).
  { repeat split; try discriminate; auto. }
  destruct (invalid_principal (parseFloat p)).
  { repeat split; try discriminate; auto. }
  destruct (parseDateString LocalTZA s) as [a|];
    destruct (parseDateString LocalTZA e) as [b|];
    try (repeat split; try discriminate; auto; fail).
  destruct (JSDate.gtb a b); cbv zeta; cbn [error results];
    repeat split; try discriminate; auto; intros H; congruence.
Qed.

(** C5, amended.  With a principal and a start date that are not blank, a
    principal that does not parse to a number above zero (NaN, zero or
    negative) gives the invalid-principal error and no result; one that
    parses to a number above zero, [Infinity] included, does not give this
    error. *)
Theorem invalid_principal_error p s e :
  blank p = false -> blank s = false ->
  (gtb (parseFloat p) (of_Z 0) = false ->
   error (calculate LocalTZA p s e) = msg_invalid_principal /\
   results (calculate LocalTZA p s e) = None) /\
  (gtb (parseFloat p) (of_Z 0) = true ->
   error (calculate LocalTZA p s e) <> msg_invalid_principal).
Proof.
  intros Bp Bs. rewrite calculate_eq, Bp, Bs, invalid_principal_spec.
  split; intros ->; cbn [negb]; [split; reflexivity|].
  destruct (parseDateString LocalTZA s) as [a|];
    destruct (parseDateString LocalTZA e) as [b|];
    try (cbn [error]; discriminate).
  destruct (JSDate.gtb a b); cbv zeta; cbn [error]; discriminate.
Qed.

End Calculator.

(** C6.  The Format operation deletes the non-digits, keeps at most 8
    digits and joins the day, month and year groups that have a digit with
    slashes; the output has at most 10 code units and is empty or matches
    [D{1,2}(/D{1,2}(/D{1,4})?)?]. *)
Theorem format_shape (raw previousValue : jsstring) :
  formatDateInput raw previousValue = format_spec raw /\
  (List.length (formatDateInput raw previousValue) <= 10)%nat /\
  (formatDateInput raw previousValue = [] \/
   Re.matches Re.date_pattern (formatDateInput raw previousValue) = true).
Proof.
  unfold formatDateInput, format_spec, Str.strip_non_digits, Str.slice,
    join_slash.
  change (js "/") with [47%N]. change (js "") with (@nil Str.code_unit).
  pose proof (StrFacts.filter_digits_all raw) as Hd.
  destruct (filter Str.is_digit raw)
    as [|a [|b [|c [|d [|e [|f [|g [|h rest]]]]]]]];
    cbn [List.length Nat.ltb Nat.leb Nat.sub firstn skipn app filter nonempty
         forallb] in *;
    split_digits Hd.
  all: split; [reflexivity|]. 
  all: split; [cbn [List.length]; lia|].
  1: left; reflexivity.
  all: right; run_pattern StrFacts.digit_not_slash; reflexivity.
Qed.

Section Normalizer.

Variable LocalTZA : Z.

Import Num NumFacts.


(** C8.  Formatting the keystrokes 01022024 gives 01/02/2024, and parsing
    that text gives a date with day 1, month index 1 and year 2024. *)
Theorem format_parse_example (previousValue : jsstring) :
  Z.abs LocalTZA <= JSDate.msPerDay ->
  formatDateInput (js "01022024") previousValue = js "01/02/2024" /\
  exists d,
    parseDateString LocalTZA (js "01/02/2024") = Some d /\
    JSDate.getDate LocalTZA d = of_Z 1 /\
    JSDate.getMonth LocalTZA d = of_Z 1 /\
    JSDate.getFullYear LocalTZA d = of_Z 2024.
Proof.
  intros Htz. split; [vm_compute; reflexivity|].
  destruct (parse_valid LocalTZA (js "01/02/2024") (js "01") (js "02") (js "2024")
              2024 2 1
              Htz ltac:(vm_compute; reflexivity) ltac:(vm_compute; reflexivity)
              ltac:(vm_compute; reflexivity) ltac:(vm_compute; reflexivity)
              ltac:(lia) ltac:(lia) ltac:(vm_compute; split; discriminate))
    as (d & P & _ & Y & M & D).
  exists d. auto.
Qed.


(** C10.  The output of the Format operation does not depend on its second
    argument. *)
Theorem format_ignores_previous (value prev1 prev2 : jsstring) :
  formatDateInput value prev1 = formatDateInput value prev2.
Proof. reflexivity. Qed.

End Normalizer.

(** ** Further properties of the screen *)

Section Further.

Variable LocalTZA : Z.

Import Num NumFacts.

(** The calculation reads the three input fields only: the error, the flags
    and the results of the state it starts from do not matter. *)
Theorem calculate_reads_inputs_only (st : State) :
  calculateInterest LocalTZA st
  = calculate LocalTZA (principal st) (startDate st) (endDate st).
Proof. destruct st. reflexivity. Qed.

(** A successful calculation clears the error and both flags and echoes the
    two date texts. *)
Theorem success_state p s e r :
  results (calculate LocalTZA p s e) = Some r ->
  error (calculate LocalTZA p s e) = js "" /\
  principalError (calculate LocalTZA p s e) = false /\
  startDateError (calculate LocalTZA p s e) = false /\
  res_startDate r = s /\ res_endDate r = e.
Proof.
  rewrite calculate_eq.
  destruct (blank p); [discriminate|]. destruct (blank s); [discriminate|].
  destruct (invalid_principal (parseFloat p)); [discriminate|].
  destruct (parseDateString LocalTZA s) as [a|]; [|discriminate].
  destruct (parseDateString LocalTZA e) as [b|]; [|discriminate].
  destruct (JSDate.gtb a b); [discriminate|].
  cbv zeta. cbn [results error principalError startDateError].
  intros H. injection H as <-. repeat split.
Qed.

(** The principal field is flagged exactly when the principal is blank, the
    start-date field exactly when the principal is not blank and the start
    date is. *)
Theorem field_flags p s e :
  principalError (calculate LocalTZA p s e) = blank p /\
  startDateError (calculate LocalTZA p s e) = (negb (blank p) && blank s)%bool.
Proof.
  rewrite calculate_eq.
  destruct (blank p); [split; reflexivity|].
  destruct (blank s); [split; reflexivity|].
  destruct (invalid_principal (parseFloat p)); [split; reflexivity|].
  destruct (parseDateString LocalTZA s) as [a|];
    destruct (parseDateString LocalTZA e) as [b|]; try (split; reflexivity).
  destruct (JSDate.gtb a b); split; reflexivity.
Qed.


(** A start date after the end date: 10/02/2024 to 01/02/2024 gives the
    date-order error and no result. *)
Theorem order_violation_example :
  Z.abs LocalTZA <= JSDate.msPerDay ->
  error (calculate LocalTZA (js "1000") (js "10/02/2024") (js "01/02/2024"))
  = msg_date_order /\
  results (calculate LocalTZA (js "1000") (js "10/02/2024") (js "01/02/2024")) = None.
Proof.
  intros Htz.
  destruct (parse_valid LocalTZA (js "10/02/2024") (js "10") (js "02") (js "2024") 2024 2 10
              Htz ltac:(vm_compute; reflexivity) ltac:(vm_compute; reflexivity)
              ltac:(vm_compute; reflexivity) ltac:(vm_compute; reflexivity)
              ltac:(lia) ltac:(lia) ltac:(vm_compute; split; discriminate))
    as (d1 & P1 & V1 & _).
  destruct (parse_valid LocalTZA (js "01/02/2024") (js "01") (js "02") (js "2024") 2024 2 1
              Htz ltac:(vm_compute; reflexivity) ltac:(vm_compute; reflexivity)
              ltac:(vm_compute; reflexivity) ltac:(vm_compute; reflexivity)
              ltac:(lia) ltac:(lia) ltac:(vm_compute; split; discriminate))
    as (d2 & P2 & V2 & _).
  change (JSDate.DayFromYear _ + _ + 10 - 1) with 19763 in V1.
  change (JSDate.DayFromYear _ + _ + 1 - 1) with 19754 in V2.
  assert (G : JSDate.gtb d1 d2 = true).
  { unfold JSDate.gtb, gtb, JSDate.getTime. rewrite V1, V2.
    rewrite ltb_of_Z
      by (apply representable_small; unfold JSDate.msPerDay, prec in *; lia).
    apply Z.ltb_lt. unfold JSDate.msPerDay. lia. }
  rewrite calculate_eq, P1, P2, G.
  replace (blank (js "1000")) with false by (vm_compute; reflexivity).
  replace (blank (js "10/02/2024")) with false by (vm_compute; reflexivity).
  replace (invalid_principal (parseFloat (js "1000"))) with false
    by (vm_compute; reflexivity).
  split; reflexivity.
Qed.

(** A day past the end of its month rolls over: 31/02/2024 parses to
    2 March 2024. *)
Theorem rollover_example :
  Z.abs LocalTZA <= JSDate.msPerDay ->
  parseDateString LocalTZA (js "31/02/2024")
  = parseDateString LocalTZA (js "02/03/2024") /\
  exists d,
    parseDateString LocalTZA (js "31/02/2024") = Some d /\
    JSDate.getDate LocalTZA d = of_Z 2 /\
    JSDate.getMonth LocalTZA d = of_Z 2 /\
    JSDate.getFullYear LocalTZA d = of_Z 2024.
Proof.
  intros Htz.
  destruct (parse_valid LocalTZA (js "02/03/2024") (js "02") (js "03") (js "2024") 2024 3 2
              Htz ltac:(vm_compute; reflexivity) ltac:(vm_compute; reflexivity)
              ltac:(vm_compute; reflexivity) ltac:(vm_compute; reflexivity)
              ltac:(lia) ltac:(lia) ltac:(vm_compute; split; discriminate))
    as (d & P & V & Y & M & D).
  assert (Q : parseDateString LocalTZA (js "31/02/2024")
              = parseDateString LocalTZA (js "02/03/2024")).
  { rewrite !parse_eq.
    change (Str.split 47%N (js "31/02/2024")) with [js "31"; js "02"; js "2024"].
    change (Str.split 47%N (js "02/03/2024")) with [js "02"; js "03"; js "2024"].
    cbv beta iota.
    assert (E : date_of_parts LocalTZA (js "31") (js "02") (js "2024")
                = date_of_parts LocalTZA (js "02") (js "03") (js "2024")).
    { unfold date_of_parts, JSDate.make.
      replace (JSDate.MakeDay (JSDate.MakeFullYear (parseInt (js "2024")))
                 (sub (parseInt (js "02")) (of_Z 1)) (parseInt (js "31")))
        with (JSDate.MakeDay (JSDate.MakeFullYear (parseInt (js "2024")))
                (sub (parseInt (js "03")) (of_Z 1)) (parseInt (js "02")))
        by (vm_compute; reflexivity).
      reflexivity. }
    rewrite E. reflexivity. }
  split; [exact Q|]. rewrite Q. exists d. auto.
Qed.

End Further.

(** ** The default date, the handlers and the effect *)

Section ParseGeneral.

Variable LocalTZA : Z.

Import Num NumFacts.

(** A date text whose three parts are integers parses, the months and days
    outside a year or a month carried over, to the local midnight of a day
    number. *)
Lemma parse_day_number s p0 p1 p2 yr mo dd :
  Z.abs LocalTZA <= JSDate.msPerDay ->
  Str.split 47%N s = [p0; p1; p2] ->
  parseInt p0 = of_Z dd -> parseInt p1 = of_Z mo -> parseInt p2 = of_Z yr ->
  - 270000 <= yr <= 270000 ->
  - 1000 <= mo <= 1000 ->
  - 100000 <= dd <= 100000 ->
  let y := if ((0 <=? yr) && (yr <=? 99))%bool then 1900 + yr else yr in
  let ym := y + (mo - 1) / 12 in
  let mn := (mo - 1) mod 12 in
  let day := JSDate.DayFromYear ym + JSDate.month_start (JSDate.leap ym) mn + dd - 1 in
  exists d,
    parseDateString LocalTZA s = Some d /\
    JSDate.DateValue d = Some (day * JSDate.msPerDay - LocalTZA).
Proof.
  intros Htz Hs H0 H1 H2 Hyr Hmo Hdd y ym mn day.
  assert (Hy : - 270000 <= y <= 270000).
  { unfold y. destruct (Z.leb_spec 0 yr); destruct (Z.leb_spec yr 99);
      cbn [andb]; lia. }
  assert (Hym : - 270100 <= ym <= 270100).
  { unfold ym. pose proof (Z.div_mod (mo - 1) 12 ltac:(lia)).
    pose proof (Z.mod_pos_bound (mo - 1) 12 ltac:(lia)). lia. }
  assert (Hmn : 0 <= mn <= 11).
  { unfold mn. pose proof (Z.mod_pos_bound (mo - 1) 12 ltac:(lia)). lia. }
  pose proof (DateFacts.leap_cases ym) as Hl.
  destruct (DateFacts.month_bounds (JSDate.leap ym) mn) as (Hms & Hme & Hml);
    [lia|lia|].
  rewrite parse_eq, Hs. unfold date_of_parts. rewrite H0, H1, H2.
  rewrite sub_of_Z by (try apply representable_small; unfold prec; lia).
  assert (Hmk : JSDate.MakeDay (JSDate.MakeFullYear (of_Z yr)) (of_Z (mo - 1)) (of_Z dd)
                = Some day).
  { unfold JSDate.MakeDay, JSDate.MakeFullYear.
    rewrite !trunc_of_Z by (apply representable_small; unfold prec; lia).
    reflexivity. }
  assert (Hrange : Z.abs (day * JSDate.msPerDay - LocalTZA) <= JSDate.maxTime).
  { assert (- 99500000 <= JSDate.DayFromYear ym <= 98000000).
    { unfold JSDate.DayFromYear. Z.div_mod_to_equations. lia. }
    unfold day, JSDate.msPerDay, JSDate.maxTime in *. lia. }
  destruct (make_value LocalTZA (of_Z yr) (of_Z (mo - 1)) (of_Z dd))
    as [E|(day' & Hmk' & E & _)].
  - exfalso. revert E. unfold JSDate.make. rewrite fixed_MakeDay, Hmk.
    unfold JSDate.MakeDate, JSDate.TimeClip, JSDate.UTC.
    cbn [JSDate.offset JSDate.fixed].
    cbn [option_map JSDate.DateValue]. rewrite Z.add_0_r.
    destruct (Z.ltb_spec JSDate.maxTime (Z.abs (day * JSDate.msPerDay - LocalTZA)));
      [lia|discriminate].
  - rewrite Hmk in Hmk'. injection Hmk' as <-. rewrite E.
    eexists. split; [reflexivity|exact E].
Qed.

End ParseGeneral.

Section FormatFacts.

Import Num NumFacts StrFacts.

(** Formatting twice is formatting once. *)
Lemma format_idempotent (value p1 p2 : jsstring) :
  formatDateInput (formatDateInput value p1) p2 = formatDateInput value p1.
Proof.
  unfold formatDateInput at 2 3. unfold Str.strip_non_digits, Str.slice.
  change (js "/") with [47%N]. change (js "") with (@nil Str.code_unit).
  pose proof (StrFacts.filter_digits_all value) as Hd.
  destruct (filter Str.is_digit value)
    as [|a [|b [|c [|d [|e [|f [|g [|h rest]]]]]]]];
    cbn [List.length Nat.ltb Nat.leb Nat.sub firstn skipn app forallb] in *;
    split_digits Hd;
    unfold formatDateInput, Str.strip_non_digits, Str.slice;
    change (js "/") with [47%N]; change (js "") with (@nil Str.code_unit);
    keep_digits; reflexivity.
Qed.

Lemma format_length value p : (List.length (formatDateInput value p) <= 10)%nat.
Proof.
  unfold formatDateInput, Str.strip_non_digits, Str.slice.
  change (js "/") with [47%N]. change (js "") with (@nil Str.code_unit).
  destruct (filter Str.is_digit value)
    as [|a [|b [|c [|d [|e [|f [|g [|h rest]]]]]]]];
    cbn [List.length Nat.ltb Nat.leb Nat.sub firstn skipn app]; lia.
Qed.

Lemma format_normalised value p : normalised (formatDateInput value p).
Proof.
  split; [intros q; apply format_idempotent|apply format_length].
Qed.

(** The digits that [formatDateInput] keeps. *)
Lemma format_digits value p :
  filter Str.is_digit (formatDateInput value p) = firstn 8 (filter Str.is_digit value).
Proof.
  unfold formatDateInput, Str.strip_non_digits, Str.slice.
  change (js "/") with [47%N]. change (js "") with (@nil Str.code_unit).
  pose proof (StrFacts.filter_digits_all value) as Hd.
  destruct (filter Str.is_digit value)
    as [|a [|b [|c [|d [|e [|f [|g [|h rest]]]]]]]];
    cbn [List.length Nat.ltb Nat.leb Nat.sub firstn skipn app forallb] in *;
    split_digits Hd; keep_digits; reflexivity.
Qed.

(** [formatDateInput] reads the first eight digits of its input only. *)
Lemma format_first_digits v w p q :
  firstn 8 (filter Str.is_digit v) = firstn 8 (filter Str.is_digit w) ->
  formatDateInput v p = formatDateInput w q.
Proof.
  unfold formatDateInput, Str.strip_non_digits, Str.slice.
  change (js "/") with [47%N]. change (js "") with (@nil Str.code_unit).
  destruct (filter Str.is_digit v)
    as [|a [|b [|c [|d [|e [|f [|g [|h rest]]]]]]]];
    destruct (filter Str.is_digit w)
      as [|a' [|b' [|c' [|d' [|e' [|f' [|g' [|h' rest']]]]]]]];
    cbn [List.length Nat.ltb Nat.leb Nat.sub firstn skipn app];
    intros E; try discriminate E; inversion E; subst; reflexivity.
Qed.

Lemma firstn_firstn_app (A : Type) n (a b : list A) :
  firstn n (firstn n a ++ b) = firstn n (a ++ b).
Proof.
  revert a. induction n as [|n IH]; intros a; [reflexivity|].
  destruct a as [|x a]; [reflexivity|]. cbn [firstn app]. rewrite IH. reflexivity.
Qed.

(** Typing goes on from the formatted text: formatting what was typed after
    a formatted text is formatting what was typed after the raw one.  With
    nothing typed, formatting twice is formatting once. *)
Theorem format_continues (value typed p q r : jsstring) :
  formatDateInput (formatDateInput value p ++ typed) q
  = formatDateInput (value ++ typed) r /\
  formatDateInput (formatDateInput value p) q = formatDateInput value p.
Proof.
  split; [|apply format_idempotent].
  apply format_first_digits.
  rewrite !filter_app, format_digits. apply firstn_firstn_app.
Qed.

(** Three groups of digits, of 2, 2 and at most 4 digits, are left as they
    are by [formatDateInput]. *)
Lemma format_three_groups A B Y p :
  List.length A = 2%nat -> List.length B = 2%nat ->
  (1 <= List.length Y <= 4)%nat ->
  forallb Str.is_digit A = true -> forallb Str.is_digit B = true ->
  forallb Str.is_digit Y = true ->
  formatDateInput (A ++ 47%N :: B ++ 47%N :: Y)%list p
  = (A ++ 47%N :: B ++ 47%N :: Y)%list.
Proof.
  intros LA LB LY DA DB DY.
  destruct A as [|a1 [|a2 [|? ?]]]; try discriminate LA.
  destruct B as [|b1 [|b2 [|? ?]]]; try discriminate LB.
  destruct Y as [|y1 [|y2 [|y3 [|y4 [|? ?]]]]]; cbn [List.length] in LY; try lia;
    cbn [forallb] in *; split_digits DA; split_digits DB; split_digits DY;
    unfold formatDateInput, Str.strip_non_digits, Str.slice;
    change (js "/") with [47%N]; change (js "") with (@nil Str.code_unit);
    cbn [app]; keep_digits; reflexivity.
Qed.

Variable LocalTZA : Z.
Hypothesis Htz : Z.abs LocalTZA <= JSDate.msPerDay.

(** Three groups of digits, of at most 2, 2 and 4 digits, always parse. *)
Lemma three_groups_parse A B Y :
  A <> [] -> B <> [] -> Y <> [] ->
  forallb Str.is_digit A = true -> forallb Str.is_digit B = true ->
  forallb Str.is_digit Y = true ->
  (List.length A <= 2)%nat -> (List.length B <= 2)%nat -> (List.length Y <= 4)%nat ->
  exists d, parseDateString LocalTZA (A ++ 47%N :: B ++ 47%N :: Y)%list = Some d.
Proof.
  intros NA NB NY DA DB DY LA LB LY.
  assert (Hs : Str.split 47%N (A ++ 47%N :: B ++ 47%N :: Y)%list = [A; B; Y]).
  { rewrite split_app by (apply digits_no_slash, DA).
    rewrite split_app by (apply digits_no_slash, DB).
    rewrite StrFacts.split_no_sep by (apply digits_no_slash, DY). reflexivity. }
  pose proof (digits_value_bound A DA) as BA.
  pose proof (digits_value_bound B DB) as BB.
  pose proof (digits_value_bound Y DY) as BY.
  assert (10 ^ Z.of_nat (List.length A) <= 10 ^ 2) by (apply Z.pow_le_mono_r; lia).
  assert (10 ^ Z.of_nat (List.length B) <= 10 ^ 2) by (apply Z.pow_le_mono_r; lia).
  assert (10 ^ Z.of_nat (List.length Y) <= 10 ^ 4) by (apply Z.pow_le_mono_r; lia).
  destruct (parse_day_number LocalTZA _ A B Y
              (Str.digits_value 10 Y) (Str.digits_value 10 B) (Str.digits_value 10 A)
              Htz Hs
              (ParseFacts.parseInt_digits A NA DA)
              (ParseFacts.parseInt_digits B NB DB)
              (ParseFacts.parseInt_digits Y NY DY)
              ltac:(lia) ltac:(lia) ltac:(lia)) as (d & P & _).
  exists d. exact P.
Qed.

(** What [formatDateInput] returns parses to a date exactly when the input
    has at least five digits, whatever the digits are: the day and month
    groups are never checked against the calendar, 99/99/9999 parses. *)
Theorem formatted_date_parses (value previousValue : jsstring) :
  (exists d, parseDateString LocalTZA (formatDateInput value previousValue) = Some d)
  <-> (5 <= List.length (Str.strip_non_digits value))%nat.
Proof.
  unfold formatDateInput, Str.strip_non_digits, Str.slice.
  change (js "/") with [47%N]. change (js "") with (@nil Str.code_unit).
  pose proof (StrFacts.filter_digits_all value) as Hd.
  destruct (filter Str.is_digit value)
    as [|a [|b [|c [|d [|e [|f [|g [|h rest]]]]]]]];
    cbn [List.length Nat.ltb Nat.leb Nat.sub firstn skipn app forallb] in *;
    split_digits Hd.
  1-5: split; [|lia]; intros [x Hx]; exfalso; revert Hx; rewrite parse_eq;
       cbn [Str.split];
       rewrite ?(digit_not a 47%N), ?(digit_not b 47%N), ?(digit_not c 47%N),
         ?(digit_not d 47%N) by (auto; lia);
       change (Str.cu_eqb 47%N 47%N) with true; cbv iota; discriminate.
  all: split; [intros _; lia|intros _].
  - apply (three_groups_parse [a; b] [c; d] [e]); cbn [forallb List.length];
      rewrite ?Hc, ?Hc0, ?Hc1, ?Hc2, ?Hc3; try reflexivity; try discriminate; lia.
  - apply (three_groups_parse [a; b] [c; d] [e; f]); cbn [forallb List.length];
      rewrite ?Hc, ?Hc0, ?Hc1, ?Hc2, ?Hc3, ?Hc4;
      try reflexivity; try discriminate; lia.
  - apply (three_groups_parse [a; b] [c; d] [e; f; g]); cbn [forallb List.length];
      rewrite ?Hc, ?Hc0, ?Hc1, ?Hc2, ?Hc3, ?Hc4, ?Hc5;
      try reflexivity; try discriminate; lia.
  - apply (three_groups_parse [a; b] [c; d] [e; f; g; h]); cbn [forallb List.length];
      rewrite ?Hc, ?Hc0, ?Hc1, ?Hc2, ?Hc3, ?Hc4, ?Hc5, ?Hc6;
      try reflexivity; try discriminate; lia.
Qed.

End FormatFacts.

Section TodayFacts.

Variable LocalTZA : Z.

Import Num NumFacts StrFacts TextFacts.

(** The text of a valid date whose local year is from 0 to 9999. *)
Lemma date_text d t :
  JSDate.DateValue d = Some t ->
  0 <= JSDate.YearFromTime (JSDate.LocalTime LocalTZA t) <= 9999 ->
  formatDateToDDMMYYYY LocalTZA d
  = (pad2 (JSDate.DateFromTime (JSDate.LocalTime LocalTZA t)) ++ 47%N
     :: pad2 (JSDate.MonthFromTime (JSDate.LocalTime LocalTZA t) + 1) ++ 47%N
     :: Str.of_N (Z.to_N (JSDate.YearFromTime (JSDate.LocalTime LocalTZA t))))%list.
Proof.
  intros E Hy.
  destruct (DateFacts.fields_range (JSDate.LocalTime LocalTZA t)) as (Hm & Hd & _).
  assert (Hl : 28 <= JSDate.month_length
                       (JSDate.leap (JSDate.YearFromTime (JSDate.LocalTime LocalTZA t)))
                       (JSDate.MonthFromTime (JSDate.LocalTime LocalTZA t)) <= 31).
  { apply DateFacts.month_bounds; [exact Hm|].
    pose proof (DateFacts.leap_cases
                  (JSDate.YearFromTime (JSDate.LocalTime LocalTZA t))). lia. }
  unfold formatDateToDDMMYYYY, JSDate.getDate, JSDate.getMonth, JSDate.getFullYear,
    JSDate.local_field. rewrite E.
  rewrite add_of_Z by (try apply representable_small; unfold prec; lia).
  rewrite (proj1 (toString_small
                    (JSDate.DateFromTime (JSDate.LocalTime LocalTZA t)) ltac:(lia))).
  rewrite (proj1 (toString_small
                    (JSDate.MonthFromTime (JSDate.LocalTime LocalTZA t) + 1) ltac:(lia))).
  rewrite (proj1 (toString_small _ Hy)).
  change (js "/") with [47%N]. reflexivity.
Qed.

(** The text of an invalid date. *)
Lemma invalid_text d :
  JSDate.DateValue d = None -> formatDateToDDMMYYYY LocalTZA d = js "NaN/NaN/NaN".
Proof.
  intros E. unfold formatDateToDDMMYYYY, JSDate.getDate, JSDate.getMonth,
    JSDate.getFullYear, JSDate.local_field. rewrite E. reflexivity.
Qed.

Lemma text_truthy d : Str.truthy (formatDateToDDMMYYYY LocalTZA d) = true.
Proof.
  unfold formatDateToDDMMYYYY. change (js "/") with [47%N].
  destruct (Str.padStart 2 (js "0") (toString (JSDate.getDate LocalTZA d)));
    reflexivity.
Qed.

(** [getTodayIST] adds 19800000 ms to the reading of the clock. *)
Lemma getTodayIST_value nowUTC t :
  JSDate.DateValue nowUTC = Some t -> Z.abs t <= JSDate.maxTime ->
  JSDate.DateValue (getTodayIST nowUTC)
  = if JSDate.maxTime <? Z.abs (t + 19800000) then None else Some (t + 19800000).
Proof.
  intros E Hb. unfold getTodayIST, JSDate.of_number, JSDate.getTime.
  rewrite E, offset_num.
  assert (Z.abs t < 2 ^ prec) by (apply maxTime_small, Hb).
  assert (Z.abs (t + 19800000) < 2 ^ prec)
    by (unfold JSDate.maxTime, prec in *; lia).
  rewrite add_of_Z by (try apply representable_small; unfold prec in *; lia).
  rewrite trunc_of_Z by (apply representable_small; assumption).
  reflexivity.
Qed.

Lemma getTodayIST_invalid nowUTC :
  JSDate.DateValue nowUTC = None -> JSDate.DateValue (getTodayIST nowUTC) = None.
Proof.
  intros E. unfold getTodayIST, JSDate.of_number, JSDate.getTime. rewrite E.
  reflexivity.
Qed.


End TodayFacts.

Section Today.

Variable LocalTZA : Z.

Import Num NumFacts StrFacts TextFacts.


(** The text of a valid date whose local year is from 0 to 9999 is left as
    it is by [formatDateInput]; it has at most 10 code units, and exactly 10
    from the year 1000 on. *)
Theorem date_text_shape (d : Date) (t : Z) (previousValue : jsstring) :
  JSDate.DateValue d = Some t ->
  0 <= JSDate.YearFromTime (JSDate.LocalTime LocalTZA t) <= 9999 ->
  formatDateInput (formatDateToDDMMYYYY LocalTZA d) previousValue
  = formatDateToDDMMYYYY LocalTZA d /\
  (List.length (formatDateToDDMMYYYY LocalTZA d) <= 10)%nat /\
  (1000 <= JSDate.YearFromTime (JSDate.LocalTime LocalTZA t) ->
   List.length (formatDateToDDMMYYYY LocalTZA d) = 10%nat).
Proof.
  intros E Hy.
  rewrite (date_text LocalTZA d t E) by lia.
  set (T := JSDate.LocalTime LocalTZA t) in *.
  destruct (DateFacts.fields_range T) as (Hm & Hd & Hday).
  set (y := JSDate.YearFromTime T) in *.
  set (m := JSDate.MonthFromTime T) in *.
  set (dt := JSDate.DateFromTime T) in *.
  assert (Hl : 28 <= JSDate.month_length (JSDate.leap y) m <= 31).
  { apply DateFacts.month_bounds; [exact Hm|].
    pose proof (DateFacts.leap_cases y). lia. }
  destruct (pad2_spec dt ltac:(lia)) as (L0 & D0 & V0).
  destruct (pad2_spec (m + 1) ltac:(lia)) as (L1 & D1 & V1).
  pose proof (FixedFacts.of_uint_digits (N.to_uint (Z.to_N y))) as D2.
  fold (Str.of_N (Z.to_N y)) in D2.
  destruct (toString_small y Hy) as (_ & L2 & L4).
  assert (L2' : (1 <= List.length (Str.of_N (Z.to_N y)))%nat).
  { pose proof (of_N_nonempty (Z.to_N y)).
    destruct (Str.of_N (Z.to_N y)); [congruence|cbn [List.length]; lia]. }
  split; [|split].
  - apply format_three_groups; auto.
  - rewrite length_app. cbn [List.length]. rewrite length_app. cbn [List.length].
    unfold Str.code_unit in *. lia.
  - intros Hk. specialize (L4 Hk).
    rewrite length_app. cbn [List.length]. rewrite length_app. cbn [List.length].
    unfold Str.code_unit in *. lia.
Qed.


(** With an invalid clock reading, or one less than 5 h 30 min before the
    end of the range of Date, the default end date is the text NaN/NaN/NaN,
    which does not parse and which [formatDateInput] empties. *)
Theorem invalid_today (nowUTC : Date) (previousValue : jsstring) :
  JSDate.DateValue nowUTC = None \/
  (exists t, JSDate.DateValue nowUTC = Some t /\ Z.abs t <= JSDate.maxTime /\
             JSDate.maxTime < t + IST) ->
  JSDate.DateValue (getTodayIST nowUTC) = None /\
  formatDateToDDMMYYYY LocalTZA (getTodayIST nowUTC) = js "NaN/NaN/NaN" /\
  parseDateString LocalTZA (formatDateToDDMMYYYY LocalTZA (getTodayIST nowUTC)) = None /\
  formatDateInput (formatDateToDDMMYYYY LocalTZA (getTodayIST nowUTC)) previousValue
  = js "".
Proof.
  intros H.
  assert (V : JSDate.DateValue (getTodayIST nowUTC) = None).
  { destruct H as [E|(t & E & Hb & Hmax)].
    - apply getTodayIST_invalid, E.
    - rewrite (getTodayIST_value nowUTC t E Hb).
      replace (JSDate.maxTime <? Z.abs (t + 19800000)) with true; [reflexivity|].
      symmetry. apply Z.ltb_lt. unfold IST in *. lia. }
  rewrite (invalid_text LocalTZA _ V).
  split; [exact V|]. split; [reflexivity|]. split; vm_compute; reflexivity.
Qed.

(** Whatever the clock and the zone, the screen opens with the principal
    and the start date empty, the end date filled in, the missing-principal
    error shown, the principal field flagged and no result. *)
Theorem mount_state (nowUTC : Date) :
  principal (mount LocalTZA nowUTC) = js "" /\
  startDate (mount LocalTZA nowUTC) = js "" /\
  endDate (mount LocalTZA nowUTC) = formatDateToDDMMYYYY LocalTZA (getTodayIST nowUTC) /\
  error (mount LocalTZA nowUTC) = msg_principal_required /\
  principalError (mount LocalTZA nowUTC) = true /\
  startDateError (mount LocalTZA nowUTC) = false /\
  results (mount LocalTZA nowUTC) = None.
Proof.
  unfold mount, effect, initial.
  cbn [principal startDate endDate]. rewrite text_truthy, orb_true_r.
  unfold calculateInterest.
  cbn [principal startDate endDate setError setPrincipalError setStartDateError
       setResults error principalError startDateError results].
  replace (blank (js "")) with true by reflexivity.
  cbn [principal startDate endDate error principalError startDateError results].
  repeat split.
Qed.

End Today.

Section Machine.

Variable LocalTZA : Z.

Import Num NumFacts StrFacts TextFacts.

Lemma calculateInterest_inputs st :
  calculateInterest LocalTZA st
  = calculate LocalTZA (principal st) (startDate st) (endDate st).
Proof. destruct st. reflexivity. Qed.

Lemma calculate_fields p s e :
  principal (calculate LocalTZA p s e) = p /\
  startDate (calculate LocalTZA p s e) = s /\
  endDate (calculate LocalTZA p s e) = e.
Proof.
  rewrite calculate_eq.
  destruct (blank p); [repeat split|].
  destruct (blank s); [repeat split|].
  destruct (invalid_principal (parseFloat p)); [repeat split|].
  destruct (parseDateString LocalTZA s) as [a|];
    destruct (parseDateString LocalTZA e) as [b|]; try (repeat split; fail).
  destruct (JSDate.gtb a b); repeat split.
Qed.

Lemma messages_nonempty :
  msg_principal_required <> js "" /\ msg_start_required <> js "" /\
  msg_invalid_principal <> js "" /\ msg_invalid_dates <> js "" /\
  msg_date_order <> js "".
Proof. repeat split; vm_compute; discriminate. Qed.

(** [calculateInterest] leaves either an error and no result, or a result
    and no error. *)
Lemma calculate_outcome p s e :
  (results (calculate LocalTZA p s e) = None /\
   error (calculate LocalTZA p s e) <> js "") \/
  (results (calculate LocalTZA p s e) <> None /\
   error (calculate LocalTZA p s e) = js "").
Proof.
  destruct messages_nonempty as (M1 & M2 & M3 & M4 & M5).
  rewrite calculate_eq.
  destruct (blank p); [left; split; [reflexivity|exact M1]|].
  destruct (blank s); [left; split; [reflexivity|exact M2]|].
  destruct (invalid_principal (parseFloat p)); [left; split; [reflexivity|exact M3]|].
  destruct (parseDateString LocalTZA s) as [a|];
    destruct (parseDateString LocalTZA e) as [b|];
    try (left; split; [reflexivity|exact M4]).
  destruct (JSDate.gtb a b); [left; split; [reflexivity|exact M5]|].
  right. cbv zeta. cbn [results error]. split; [discriminate|reflexivity].
Qed.

(** With the start date empty, or the principal empty, the outcome is one
    of the two missing-field errors. *)
Lemma calculate_missing p s e :
  p = [] \/ s = [] ->
  results (calculate LocalTZA p s e) = None /\
  (error (calculate LocalTZA p s e) = msg_principal_required \/
   error (calculate LocalTZA p s e) = msg_start_required).
Proof.
  intros H. rewrite calculate_eq.
  destruct (blank p) eqn:Bp; [split; [reflexivity|left; reflexivity]|].
  destruct H as [->| ->]; [discriminate Bp|].
  replace (blank []) with true by reflexivity.
  split; [reflexivity|right; reflexivity].
Qed.

Lemma truthy_nil s : Str.truthy s = false <-> s = [].
Proof. destruct s; split; intros H; try reflexivity; discriminate H. Qed.

Lemma guard_false p s e :
  (Str.truthy p || Str.truthy s || Str.truthy e)%bool = false ->
  p = [] /\ s = [] /\ e = [].
Proof.
  intros H. apply orb_false_iff in H. destruct H as [H He].
  apply orb_false_iff in H. destruct H as [Hp Hs].
  repeat split; apply truthy_nil; assumption.
Qed.

Lemma same_deps_eq a b :
  same_deps a b = true <->
  principal a = principal b /\ startDate a = startDate b /\ endDate a = endDate b.
Proof.
  unfold same_deps. rewrite !andb_true_iff, !eqb_eq. tauto.
Qed.

(** A handler changes one field, so that of three empty fields after it two
    were empty before. *)
Lemma handle_fields ev st :
  error (handle ev st) = error st /\
  principalError (handle ev st) = principalError st /\
  startDateError (handle ev st) = startDateError st /\
  results (handle ev st) = results st /\
  ((startDate (handle ev st) = startDate st /\ endDate (handle ev st) = endDate st) \/
   (principal (handle ev st) = principal st /\ endDate (handle ev st) = endDate st) \/
   (principal (handle ev st) = principal st /\ startDate (handle ev st) = startDate st)).
Proof.
  destruct ev; unfold handle, setPrincipal, setStartDate, setEndDate;
    cbn [principal startDate endDate error principalError startDateError results];
    tauto.
Qed.

Lemma handle_same ev st : same_deps st (handle ev st) = true -> handle ev st = st.
Proof.
  intros H. apply same_deps_eq in H. destruct H as (Hp & Hs & He).
  destruct st as [p s e er pe se r], ev;
    unfold handle, setPrincipal, setStartDate, setEndDate in *;
    cbn [principal startDate endDate error principalError startDateError results] in *;
    congruence.
Qed.

Lemma step_consistent st ev :
  consistent LocalTZA st -> consistent LocalTZA (step LocalTZA st ev).
Proof.
  intros [I1 I2]. unfold step. cbv zeta.
  destruct (same_deps st (handle ev st)) eqn:S.
  { rewrite (handle_same ev st S). split; assumption. }
  unfold effect.
  destruct (Str.truthy (principal (handle ev st)) || Str.truthy (startDate (handle ev st))
            || Str.truthy (endDate (handle ev st)))%bool eqn:G.
  - rewrite calculateInterest_inputs.
    destruct (calculate_fields (principal (handle ev st)) (startDate (handle ev st))
                (endDate (handle ev st))) as (Fp & Fs & Fe).
    split.
    + intros _. rewrite Fp, Fs, Fe. reflexivity.
    + rewrite Fp, Fs, Fe, G. discriminate.
  - split; [rewrite G; discriminate|]. intros _.
    destruct (guard_false _ _ _ G) as (Hp & Hs & He).
    destruct (handle_fields ev st) as (Ee & _ & _ & Er & Hf).
    rewrite Ee, Er.
    destruct (Str.truthy (principal st) || Str.truthy (startDate st)
              || Str.truthy (endDate st))%bool eqn:G0.
    + rewrite (I1 eq_refl).
      apply calculate_missing.
      destruct Hf as [[Hs' _]|[[Hp' _]|[Hp' _]]].
      * right. congruence.
      * left. congruence.
      * left. congruence.
    + apply I2. reflexivity.
Qed.

Lemma mount_consistent nowUTC : consistent LocalTZA (mount LocalTZA nowUTC).
Proof.
  unfold mount, effect, initial. cbn [principal startDate endDate].
  rewrite text_truthy, orb_true_r. rewrite calculateInterest_inputs.
  cbn [principal startDate endDate].
  destruct (calculate_fields (js "") (js "")
              (formatDateToDDMMYYYY LocalTZA (getTodayIST nowUTC))) as (Fp & Fs & Fe).
  split.
  - intros _. rewrite Fp, Fs, Fe. reflexivity.
  - rewrite Fp, Fs, Fe. cbn [Str.truthy]. rewrite text_truthy, orb_true_r. discriminate.
Qed.

Lemma run_consistent evs : forall st,
  consistent LocalTZA st -> consistent LocalTZA (run LocalTZA st evs).
Proof.
  induction evs as [|ev evs IH]; intros st H; [exact H|].
  cbn [run fold_left]. apply IH, step_consistent, H.
Qed.

(** After any sequence of events the result on the screen is the one
    [calculateInterest] gives for the fields as they are now, and, unless the
    three fields are empty, so are the error and the flags. *)
Theorem results_are_current (nowUTC : Date) (evs : list Event) :
  results (run LocalTZA (mount LocalTZA nowUTC) evs)
  = results (calculate LocalTZA
               (principal (run LocalTZA (mount LocalTZA nowUTC) evs))
               (startDate (run LocalTZA (mount LocalTZA nowUTC) evs))
               (endDate (run LocalTZA (mount LocalTZA nowUTC) evs))) /\
  (principal (run LocalTZA (mount LocalTZA nowUTC) evs) <> js "" \/
   startDate (run LocalTZA (mount LocalTZA nowUTC) evs) <> js "" \/
   endDate (run LocalTZA (mount LocalTZA nowUTC) evs) <> js "" ->
   run LocalTZA (mount LocalTZA nowUTC) evs
   = calculate LocalTZA
       (principal (run LocalTZA (mount LocalTZA nowUTC) evs))
       (startDate (run LocalTZA (mount LocalTZA nowUTC) evs))
       (endDate (run LocalTZA (mount LocalTZA nowUTC) evs))).
Proof.
  pose proof (run_consistent evs _ (mount_consistent nowUTC)) as [I1 I2].
  set (st := run LocalTZA (mount LocalTZA nowUTC) evs) in *.
  destruct (Str.truthy (principal st) || Str.truthy (startDate st)
            || Str.truthy (endDate st))%bool eqn:G.
  - split; [rewrite <- (I1 eq_refl); reflexivity|]. intros _. apply I1. reflexivity.
  - destruct (guard_false _ _ _ G) as (Hp & Hs & He).
    destruct (I2 eq_refl) as [R _]. split.
    + rewrite R. symmetry. apply calculate_missing. left. exact Hp.
    + change (js "") with (@nil Str.code_unit). intros [H|[H|H]]; congruence.
Qed.

(** After any sequence of events the screen holds either an error and no
    result, or a result and no error. *)
Theorem error_or_result (nowUTC : Date) (evs : list Event) :
  (results (run LocalTZA (mount LocalTZA nowUTC) evs) = None /\
   error (run LocalTZA (mount LocalTZA nowUTC) evs) <> js "") \/
  (results (run LocalTZA (mount LocalTZA nowUTC) evs) <> None /\
   error (run LocalTZA (mount LocalTZA nowUTC) evs) = js "").
Proof.
  pose proof (run_consistent evs _ (mount_consistent nowUTC)) as [I1 I2].
  set (st := run LocalTZA (mount LocalTZA nowUTC) evs) in *.
  destruct (Str.truthy (principal st) || Str.truthy (startDate st)
            || Str.truthy (endDate st))%bool eqn:G.
  - rewrite (I1 eq_refl). apply calculate_outcome.
  - destruct (I2 eq_refl) as [R E]. left. split; [exact R|].
    destruct messages_nonempty as (M1 & M2 & _).
    destruct E as [-> | ->]; assumption.
Qed.

Lemma mount_eq nowUTC :
  mount LocalTZA nowUTC
  = mkState [] [] (formatDateToDDMMYYYY LocalTZA (getTodayIST nowUTC))
            msg_principal_required true false None.
Proof.
  unfold mount, effect, initial. cbn [principal startDate endDate].
  rewrite text_truthy, orb_true_r. rewrite calculateInterest_inputs, calculate_eq.
  reflexivity.
Qed.

Lemma step_changed st ev :
  same_deps st (handle ev st) = false ->
  (Str.truthy (principal (handle ev st)) || Str.truthy (startDate (handle ev st))
   || Str.truthy (endDate (handle ev st)))%bool = true ->
  step LocalTZA st ev
  = calculate LocalTZA (principal (handle ev st)) (startDate (handle ev st))
              (endDate (handle ev st)).
Proof.
  intros S G. unfold step, effect. cbv zeta. rewrite S, G.
  apply calculateInterest_inputs.
Qed.

(** The effect does not run when the three fields are empty, so the screen
    then keeps an error from before: no result and one of the two
    missing-field errors.  After typing a principal, emptying the end date
    and emptying the principal it is the missing-start-date error, with the
    start-date field flagged, although [calculateInterest] on three empty
    fields reports the missing principal. *)
Theorem cleared_fields_keep_error (nowUTC : Date) (evs : list Event) :
  (principal (run LocalTZA (mount LocalTZA nowUTC) evs) = js "" /\
   startDate (run LocalTZA (mount LocalTZA nowUTC) evs) = js "" /\
   endDate (run LocalTZA (mount LocalTZA nowUTC) evs) = js "" ->
   results (run LocalTZA (mount LocalTZA nowUTC) evs) = None /\
   (error (run LocalTZA (mount LocalTZA nowUTC) evs) = msg_principal_required \/
    error (run LocalTZA (mount LocalTZA nowUTC) evs) = msg_start_required)) /\
  run LocalTZA (mount LocalTZA nowUTC) clearing_events
  = mkState (js "") (js "") (js "") msg_start_required false true None /\
  error (calculate LocalTZA (js "") (js "") (js "")) = msg_principal_required.
Proof.
  split; [|split; [|reflexivity]].
  - pose proof (run_consistent evs _ (mount_consistent nowUTC)) as [_ I2].
    intros (Hp & Hs & He). apply I2. rewrite Hp, Hs, He. reflexivity.
  - rewrite mount_eq. pose proof (text_truthy LocalTZA (getTodayIST nowUTC)) as HT.
    generalize dependent (formatDateToDDMMYYYY LocalTZA (getTodayIST nowUTC)).
    intros T HT. destruct T as [|c T]; [discriminate HT|].
    unfold clearing_events, run. cbn [fold_left].
    rewrite (step_changed _ (ChangePrincipal (js "5"))) by reflexivity.
    unfold handle, setPrincipal. cbn [principal startDate endDate].
    rewrite calculate_eq.
    replace (blank (js "5")) with false by reflexivity.
    replace (blank []) with true by reflexivity.
    rewrite (step_changed _ (ChangeEndDate (js ""))) by reflexivity.
    unfold handle, setEndDate. cbn [principal startDate endDate].
    replace (formatDateInput (js "") (c :: T)) with (@nil Str.code_unit) by reflexivity.
    rewrite calculate_eq.
    replace (blank (js "5")) with false by reflexivity.
    replace (blank []) with true by reflexivity.
    reflexivity.
Qed.

Lemma calculateInterest_fields st :
  principal (calculateInterest LocalTZA st) = principal st /\
  startDate (calculateInterest LocalTZA st) = startDate st /\
  endDate (calculateInterest LocalTZA st) = endDate st.
Proof. rewrite calculateInterest_inputs. apply calculate_fields. Qed.

(** Running [calculateInterest] again changes nothing. *)
Theorem calculateInterest_idempotent (st : State) :
  calculateInterest LocalTZA (calculateInterest LocalTZA st)
  = calculateInterest LocalTZA st.
Proof.
  rewrite (calculateInterest_inputs (calculateInterest LocalTZA st)).
  destruct (calculateInterest_fields st) as (-> & -> & ->).
  symmetry. apply calculateInterest_inputs.
Qed.

Lemma step_fields st ev :
  principal (step LocalTZA st ev) = principal (handle ev st) /\
  startDate (step LocalTZA st ev) = startDate (handle ev st) /\
  endDate (step LocalTZA st ev) = endDate (handle ev st).
Proof.
  unfold step, effect. cbv zeta.
  destruct (same_deps st (handle ev st)); [auto|].
  destruct (_ || _ || _)%bool; [apply calculateInterest_fields|auto].
Qed.

Lemma run_dates today evs : forall st,
  normalised (startDate st) ->
  endDate st = today \/ normalised (endDate st) ->
  normalised (startDate (run LocalTZA st evs)) /\
  (endDate (run LocalTZA st evs) = today \/ normalised (endDate (run LocalTZA st evs))).
Proof.
  induction evs as [|ev evs IH]; intros st Hs He; [auto|].
  cbn [run fold_left]. apply IH.
  - destruct (step_fields st ev) as (_ & -> & _).
    destruct ev; cbn [handle setPrincipal setStartDate setEndDate startDate];
      try exact Hs. apply format_normalised.
  - destruct (step_fields st ev) as (_ & _ & ->).
    destruct ev; cbn [handle setPrincipal setStartDate setEndDate endDate];
      try exact He. right. apply format_normalised.
Qed.

(** After any sequence of events the start-date field holds a text that
    [formatDateInput] leaves as it is, of at most 10 code units; so does the
    end-date field, unless it still holds today's date. *)
Theorem date_fields_normalised (nowUTC : Date) (evs : list Event) :
  ((forall previousValue,
      formatDateInput (startDate (run LocalTZA (mount LocalTZA nowUTC) evs)) previousValue
      = startDate (run LocalTZA (mount LocalTZA nowUTC) evs)) /\
   (List.length (startDate (run LocalTZA (mount LocalTZA nowUTC) evs)) <= 10)%nat) /\
  (endDate (run LocalTZA (mount LocalTZA nowUTC) evs)
   = formatDateToDDMMYYYY LocalTZA (getTodayIST nowUTC) \/
   (forall previousValue,
      formatDateInput (endDate (run LocalTZA (mount LocalTZA nowUTC) evs)) previousValue
      = endDate (run LocalTZA (mount LocalTZA nowUTC) evs)) /\
   (List.length (endDate (run LocalTZA (mount LocalTZA nowUTC) evs)) <= 10)%nat).
Proof.
  apply (run_dates (formatDateToDDMMYYYY LocalTZA (getTodayIST nowUTC)) evs).
  - rewrite mount_eq. cbn [startDate]. split; [reflexivity|cbn [List.length]; lia].
  - left. rewrite mount_eq. reflexivity.
Qed.

End Machine.

Section Outcomes.

Variable LocalTZA : Z.

Import Num NumFacts StrFacts TextFacts.





(** There is no check for a missing end date: with the other two fields
    in order, a blank end date gives the invalid-dates error, and no field is
    flagged. *)
Theorem blank_end_date p s e :
  blank p = false -> blank s = false ->
  gtb (parseFloat p) (of_Z 0) = true ->
  blank e = true ->
  error (calculate LocalTZA p s e) = msg_invalid_dates /\
  principalError (calculate LocalTZA p s e) = false /\
  startDateError (calculate LocalTZA p s e) = false /\
  results (calculate LocalTZA p s e) = None.
Proof.
  intros Bp Bs Hp Be.
  rewrite calculate_eq, Bp, Bs, invalid_principal_spec, Hp, (blank_parse LocalTZA e Be).
  cbn [negb]. destruct (parseDateString LocalTZA s); repeat split.
Qed.

Lemma digit_first_not_blank c r : Str.is_digit c = true -> blank (c :: r) = false.
Proof.
  intros Hc. destruct (blank (c :: r)) eqn:B; [|reflexivity].
  apply blank_white in B. cbn [forallb] in B. apply andb_true_iff in B.
  rewrite (digit_not_white c Hc) in B. destruct B; discriminate.
Qed.

Lemma digit_not_l c k :
  Str.is_digit c = true -> (k < 48 \/ 57 < k)%N -> Str.cu_eqb k c = false.
Proof.
  intros H Hk. apply digit_range in H. apply cu_eqb_neq. lia.
Qed.

(** [parseFloat] on digits followed by something that continues no
    number. *)
Lemma unsigned_digits ds tail :
  ds <> [] -> forallb Str.is_digit ds = true ->
  match tail with
  | [] => True
  | c :: _ => Str.is_digit c = false /\ Str.cu_eqb c 46%N = false /\
              Str.cu_eqb c 101%N = false /\ Str.cu_eqb c 69%N = false
  end ->
  parseFloat (ds ++ tail) = of_Z (Str.digits_value 10 ds).
Proof.
  intros Hne Hd Ht.
  assert (Tk : Str.take_while Str.is_digit (ds ++ tail) = ds).
  { destruct tail as [|c rest].
    - rewrite app_nil_r. apply take_while_all, Hd.
    - apply take_while_app; tauto. }
  assert (Dr : Str.drop_while Str.is_digit (ds ++ tail) = tail).
  { destruct tail as [|c rest].
    - rewrite app_nil_r. apply drop_while_forall, Hd.
    - apply drop_while_app; tauto. }
  destruct ds as [|x ds]; [congruence|].
  pose proof Hd as Hd'. cbn [forallb] in Hd'. apply andb_true_iff in Hd'.
  destruct Hd' as [Hx _].
  unfold parseFloat, Str.trimStart. cbn [app Str.drop_while].
  rewrite (digit_not_white x Hx), !(digit_not x) by (auto; lia).
  unfold unsigned_decimal.
  change (Str.lit "Infinity") with (73%N :: Str.lit "nfinity").
  cbn [Str.starts_with]. rewrite (digit_not_l x 73%N Hx) by lia. cbn [andb].
  change (x :: ds ++ tail)%list with ((x :: ds) ++ tail)%list.
  rewrite Tk, Dr.
  assert (V : of_decimal false (Str.digits_value 10 ((x :: ds) ++ [])) (0 - Z.of_nat 0)
              = of_Z (Str.digits_value 10 (x :: ds))).
  { rewrite app_nil_r. apply of_decimal_int. apply (digits_value_bound (x :: ds) Hd). }
  destruct tail as [|c rest].
  - exact V.
  - destruct Ht as (_ & Hdot & He & HE). rewrite Hdot.
    unfold exponent_part. rewrite He, HE. exact V.
Qed.

(** The principal is read up to the first character that continues no
    number: digits followed by a character that is no digit, point or
    exponent mark, and by anything after it, give the outcome of the digits
    alone.  So 1,000 is read as 1. *)
Theorem principal_reads_prefix ds c rest s e :
  ds <> [] -> forallb Str.is_digit ds = true ->
  Str.is_digit c = false -> Str.cu_eqb c 46%N = false ->
  Str.cu_eqb c 101%N = false -> Str.cu_eqb c 69%N = false ->
  parseFloat (ds ++ c :: rest) = of_Z (Str.digits_value 10 ds) /\
  error (calculate LocalTZA (ds ++ c :: rest) s e) = error (calculate LocalTZA ds s e) /\
  principalError (calculate LocalTZA (ds ++ c :: rest) s e)
  = principalError (calculate LocalTZA ds s e) /\
  startDateError (calculate LocalTZA (ds ++ c :: rest) s e)
  = startDateError (calculate LocalTZA ds s e) /\
  results (calculate LocalTZA (ds ++ c :: rest) s e) = results (calculate LocalTZA ds s e).
Proof.
  intros Hne Hd Hc Hdot He HE.
  assert (F1 : parseFloat (ds ++ c :: rest) = of_Z (Str.digits_value 10 ds))
    by (apply unsigned_digits; auto).
  assert (F2 : parseFloat ds = of_Z (Str.digits_value 10 ds)).
  { rewrite <- (app_nil_r ds) at 1. apply unsigned_digits; auto. }
  split; [exact F1|].
  rewrite !calculate_eq, F1, F2.
  destruct ds as [|x ds]; [congruence|].
  pose proof Hd as Hd'. cbn [forallb] in Hd'. apply andb_true_iff in Hd'.
  destruct Hd' as [Hx _]. cbn [app].
  rewrite !(digit_first_not_blank x _ Hx).
  destruct (blank s); [repeat split|].
  destruct (invalid_principal _); [repeat split|].
  destruct (parseDateString LocalTZA s) as [a|];
    destruct (parseDateString LocalTZA e) as [b|]; try (repeat split; fail).
  destruct (JSDate.gtb a b); repeat split.
Qed.

(** The rows of a result card are keyed by their rates: the keys are 3, 4,
    7 and 12, no two of them equal. *)
Theorem row_keys_distinct p s e r :
  results (calculate LocalTZA p s e) = Some r ->
  map (fun item => toString (rate item)) (data r)
  = [js "3"; js "4"; js "7"; js "12"] /\
  NoDup (map (fun item => toString (rate item)) (data r)).
Proof.
  intros H.
  destruct (success_inv LocalTZA _ _ _ _ H)
    as (_ & _ & da & db & _ & _ & _ & _ & _ & _ & _ & ->).
  cbn [data]. rewrite map_map.
  assert (E : map (fun x => toString (rate (entry_for (parseFloat p) (of_Z (db - da)) x)))
                  interestRates = [js "3"; js "4"; js "7"; js "12"]).
  { unfold entry_for. cbn [rate]. vm_compute. reflexivity. }
  rewrite E. split; [reflexivity|].
  repeat constructor; cbn [In]; intros F; intuition discriminate.
Qed.
End Outcomes.

(** * The claims at concrete inputs *)

Lemma IST_offset : Z.abs IST <= JSDate.msPerDay.
Proof. vm_compute. discriminate. Qed.

Lemma calculate_succeeds_witness :
  (Num.is_finite (Num.parseFloat (js "1000")) = true /\
   Num.gtb (Num.parseFloat (js "1000")) (Num.of_Z 0) = true /\
   parseDateString IST (js "01/01/2024")
   = Some (date_of_parts IST (js "01") (js "01") (js "2024")) /\
   parseDateString IST (js "31/01/2024")
   = Some (date_of_parts IST (js "31") (js "01") (js "2024")) /\
   JSDate.gtb (date_of_parts IST (js "01") (js "01") (js "2024"))
              (date_of_parts IST (js "31") (js "01") (js "2024")) = false) /\
  error (calculate IST (js "1000") (js "01/01/2024") (js "31/01/2024")) = js "" /\
  exists r,
    results (calculate IST (js "1000") (js "01/01/2024") (js "31/01/2024")) = Some r /\
    Num.leb (Num.of_Z 0) (dayDiff r) = true /\
    List.length (data r) = 4%nat /\
    map rate (data r) = map Num.of_Z [3; 4; 7; 12].
Proof.
  split.
  - repeat split; vm_compute; reflexivity.
  - apply (calculate_succeeds IST (js "1000") (js "01/01/2024") (js "31/01/2024")
             (date_of_parts IST (js "01") (js "01") (js "2024"))
             (date_of_parts IST (js "31") (js "01") (js "2024")));
      vm_compute; reflexivity.
Defined.



Lemma invalid_principal_error_witness :
  blank (js "-12.5") = false /\ blank (js "01/01/2024") = false /\
  (Num.gtb (Num.parseFloat (js "-12.5")) (Num.of_Z 0) = false ->
   error (calculate IST (js "-12.5") (js "01/01/2024") (js "31/01/2024"))
   = msg_invalid_principal /\
   results (calculate IST (js "-12.5") (js "01/01/2024") (js "31/01/2024")) = None) /\
  (Num.gtb (Num.parseFloat (js "-12.5")) (Num.of_Z 0) = true ->
   error (calculate IST (js "-12.5") (js "01/01/2024") (js "31/01/2024"))
   <> msg_invalid_principal).
Proof.
  split; [vm_compute; reflexivity|]. split; [vm_compute; reflexivity|].
  apply (invalid_principal_error IST (js "-12.5") (js "01/01/2024") (js "31/01/2024"));
    vm_compute; reflexivity.
Defined.

Lemma format_parse_example_witness :
  Z.abs IST <= JSDate.msPerDay /\
  formatDateInput (js "01022024") (js "0102202") = js "01/02/2024" /\
  exists d,
    parseDateString IST (js "01/02/2024") = Some d /\
    JSDate.getDate IST d = Num.of_Z 1 /\
    JSDate.getMonth IST d = Num.of_Z 1 /\
    JSDate.getFullYear IST d = Num.of_Z 2024.
Proof.
  split; [exact IST_offset|].
  apply (format_parse_example IST (js "0102202")). exact IST_offset.
Defined.



Lemma success_state_witness :
  exists r,
    results (calculate IST (js "2500.50") (js "01/04/2023") (js "31/03/2024")) = Some r /\
    error (calculate IST (js "2500.50") (js "01/04/2023") (js "31/03/2024")) = js "" /\
    principalError (calculate IST (js "2500.50") (js "01/04/2023") (js "31/03/2024")) = false /\
    startDateError (calculate IST (js "2500.50") (js "01/04/2023") (js "31/03/2024")) = false /\
    res_startDate r = js "01/04/2023" /\ res_endDate r = js "31/03/2024".
Proof.
  eexists. split.
  - vm_compute. reflexivity.
  - apply (success_state IST (js "2500.50") (js "01/04/2023") (js "31/03/2024")).
    vm_compute. reflexivity.
Defined.

Lemma order_violation_example_witness :
  Z.abs IST <= JSDate.msPerDay /\
  error (calculate IST (js "1000") (js "10/02/2024") (js "01/02/2024"))
  = msg_date_order /\
  results (calculate IST (js "1000") (js "10/02/2024") (js "01/02/2024")) = None.
Proof.
  split; [exact IST_offset|]. apply (order_violation_example IST). exact IST_offset.
Defined.

Lemma rollover_example_witness :
  Z.abs IST <= JSDate.msPerDay /\
  parseDateString IST (js "31/02/2024") = parseDateString IST (js "02/03/2024") /\
  exists d,
    parseDateString IST (js "31/02/2024") = Some d /\
    JSDate.getDate IST d = Num.of_Z 2 /\
    JSDate.getMonth IST d = Num.of_Z 2 /\
    JSDate.getFullYear IST d = Num.of_Z 2024.
Proof.
  split; [exact IST_offset|]. apply (rollover_example IST). exact IST_offset.
Defined.


Lemma date_text_shape_witness :
  (JSDate.DateValue new_year_evening = Some 1704115800000 /\
   0 <= JSDate.YearFromTime (JSDate.LocalTime IST 1704115800000) <= 9999) /\
  formatDateInput (formatDateToDDMMYYYY IST new_year_evening) (js "")
  = formatDateToDDMMYYYY IST new_year_evening /\
  (List.length (formatDateToDDMMYYYY IST new_year_evening) <= 10)%nat /\
  (1000 <= JSDate.YearFromTime (JSDate.LocalTime IST 1704115800000) ->
   List.length (formatDateToDDMMYYYY IST new_year_evening) = 10%nat).
Proof.
  split.
  - split; [reflexivity|]. vm_compute. split; discriminate.
  - apply (date_text_shape IST new_year_evening 1704115800000 (js "")).
    + reflexivity.
    + vm_compute. split; discriminate.
Defined.


Lemma row_keys_distinct_witness :
  exists r,
    results (calculate IST (js "1000") (js "01/01/2024") (js "31/01/2024")) = Some r /\
    map (fun item => Num.toString (rate item)) (data r)
    = [js "3"; js "4"; js "7"; js "12"] /\
    NoDup (map (fun item => Num.toString (rate item)) (data r)).
Proof.
  eexists. split.
  - vm_compute. reflexivity.
  - apply (row_keys_distinct IST (js "1000") (js "01/01/2024") (js "31/01/2024")).
    vm_compute. reflexivity.
Defined.

Lemma invalid_today_witness :
  (JSDate.DateValue (JSDate.mkDate None) = None \/
   (exists t, JSDate.DateValue (JSDate.mkDate None) = Some t /\
              Z.abs t <= JSDate.maxTime /\ JSDate.maxTime < t + IST)) /\
  JSDate.DateValue (getTodayIST (JSDate.mkDate None)) = None /\
  formatDateToDDMMYYYY IST (getTodayIST (JSDate.mkDate None)) = js "NaN/NaN/NaN" /\
  parseDateString IST (formatDateToDDMMYYYY IST (getTodayIST (JSDate.mkDate None))) = None /\
  formatDateInput (formatDateToDDMMYYYY IST (getTodayIST (JSDate.mkDate None))) (js "")
  = js "".
Proof.
  split; [left; reflexivity|].
  apply (invalid_today IST (JSDate.mkDate None) (js "")). left. reflexivity.
Defined.

Lemma formatted_date_parses_witness :
  Z.abs IST <= JSDate.msPerDay /\
  formatDateInput (js "99999999") (js "") = js "99/99/9999" /\
  ((exists d, parseDateString IST (formatDateInput (js "99999999") (js "")) = Some d)
   <-> (5 <= List.length (Str.strip_non_digits (js "99999999")))%nat).
Proof.
  split; [exact IST_offset|]. split; [vm_compute; reflexivity|].
  apply (formatted_date_parses IST IST_offset (js "99999999") (js "")).
Defined.



Lemma blank_end_date_witness :
  (blank (js "1000") = false /\ blank (js "01/01/2024") = false /\
   Num.gtb (Num.parseFloat (js "1000")) (Num.of_Z 0) = true /\
   blank (js "") = true) /\
  error (calculate IST (js "1000") (js "01/01/2024") (js "")) = msg_invalid_dates /\
  principalError (calculate IST (js "1000") (js "01/01/2024") (js "")) = false /\
  startDateError (calculate IST (js "1000") (js "01/01/2024") (js "")) = false /\
  results (calculate IST (js "1000") (js "01/01/2024") (js "")) = None.
Proof.
  split.
  - repeat split; vm_compute; reflexivity.
  - apply (blank_end_date IST (js "1000") (js "01/01/2024") (js ""));
      vm_compute; reflexivity.
Defined.

Lemma principal_reads_prefix_witness :
  (js "1" <> [] /\ forallb Str.is_digit (js "1") = true /\
   Str.is_digit 44%N = false /\ Str.cu_eqb 44%N 46%N = false /\
   Str.cu_eqb 44%N 101%N = false /\ Str.cu_eqb 44%N 69%N = false) /\
  (js "1" ++ 44%N :: js "000")%list = js "1,000" /\
  Num.parseFloat (js "1" ++ 44%N :: js "000") = Num.of_Z (Str.digits_value 10 (js "1")) /\
  error (calculate IST (js "1" ++ 44%N :: js "000") (js "01/01/2024") (js "31/01/2024"))
  = error (calculate IST (js "1") (js "01/01/2024") (js "31/01/2024")) /\
  principalError (calculate IST (js "1" ++ 44%N :: js "000") (js "01/01/2024") (js "31/01/2024"))
  = principalError (calculate IST (js "1") (js "01/01/2024") (js "31/01/2024")) /\
  startDateError (calculate IST (js "1" ++ 44%N :: js "000") (js "01/01/2024") (js "31/01/2024"))
  = startDateError (calculate IST (js "1") (js "01/01/2024") (js "31/01/2024")) /\
  results (calculate IST (js "1" ++ 44%N :: js "000") (js "01/01/2024") (js "31/01/2024"))
  = results (calculate IST (js "1") (js "01/01/2024") (js "31/01/2024")).
Proof.
  split; [|split; [vm_compute; reflexivity|]].
  - split; [vm_compute; discriminate|]. repeat split; vm_compute; reflexivity.
  - apply (principal_reads_prefix IST (js "1") 44%N (js "000")
             (js "01/01/2024") (js "31/01/2024"));
      try (vm_compute; reflexivity). vm_compute. discriminate.
Defined.

(** * Where the specification and the code part *)


(** The rounding is that of the computed double, not of the exact quotient:
    the principal 12227.5 is the double [24455 / 2], and
    [12227.5 * 3 * 1 / 36500] is exactly [1.005], half way between two
    hundredths; the double nearest to it lies below, and the entry for rate
    3 reads 1.00. *)
Lemma half_cent_example :
  exists r,
    results (calculate IST (js "12227.5") (js "01/01/2024") (js "02/01/2024")) = Some r /\
    dayDiff r = Num.of_Z 1 /\
    Num.exact (Num.parseFloat (js "12227.5")) = Some (24455 * 2 ^ 38, 39) /\
    24455 * 3 * 1 * 1000 = 2 * 36500 * 1005 /\
    nth 0 (map interest (data r)) [] = js "1.00".
Proof.
  eexists. split; [vm_compute; reflexivity|].
  split; [vm_compute; reflexivity|].
  split; [vm_compute; reflexivity|].
  split; [reflexivity|]. vm_compute. reflexivity.
Qed.


(** C5 as stated fails: the principal text Infinity is not blank and does
    not parse to a finite number, yet there is no error and there is a
    result. *)
Lemma invalid_principal_error_counterexample :
  blank (js "Infinity") = false /\
  Num.parseFloat (js "Infinity") = Num.Infinity /\
  Num.is_finite (Num.parseFloat (js "Infinity")) = false /\
  error (calculate IST (js "Infinity") (js "01/01/2024") (js "31/01/2024")) = js "" /\
  js "" <> msg_invalid_principal /\
  exists r,
    results (calculate IST (js "Infinity") (js "01/01/2024") (js "31/01/2024"))
    = Some r.
Proof.
  split; [vm_compute; reflexivity|]. split; [vm_compute; reflexivity|].
  split; [vm_compute; reflexivity|]. split; [vm_compute; reflexivity|].
  split; [vm_compute; discriminate|].
  eexists. vm_compute. reflexivity.
Qed.

